(** * Price-list browser: listing client, record normalisation, navigation
      state and list view

    A shallow embedding of [src/services/googleDriveService.ts], of the
    state logic of [src/components/GoogleDrivePriceListManager.tsx] and
    [src/components/PriceListManager.tsx] and of the session flag of the
    application shell, followed by the properties of the specification that
    concern them and by further properties read off the code.

    Conventions of the embedding:
    - a JavaScript string is a [string]; the platform functions whose result
      depends on Unicode tables or on the ICU collator
      ([String.prototype.toLowerCase], [String.prototype.localeCompare] with
      the ['tr'] locale, the [Date] constructor applied to a string) are
      variables of the sections below, and an ASCII instance is supplied for
      evaluating examples;
    - a JavaScript number that the code computes is either [NaN] or an
      integer ([num]); the one fraction the code forms, in [formatFileSize],
      is kept as numerator and denominator;
    - an event handler is a computation over the component state that may
      raise ([handler]). *)

From Stdlib Require Import ZArith List String Ascii Bool Lia Permutation Sorted.
Import ListNotations.

Local Open Scope string_scope.
Local Open Scope Z_scope.

(** ** The fragment of the JavaScript runtime the program uses *)

Module JS.

(** Numbers: [NaN] or an integer value. *)
Inductive num : Type :=
| NaN
| Fin (z : Z).

(** [a - b] on numbers. *)
Definition sub (a b : num) : num :=
  match a, b with
  | Fin x, Fin y => Fin (x - y)
  | _, _ => NaN
  end.

(** Truthiness of an optional string ([undefined] and [''] are falsy). *)
Definition truthy (s : option string) : bool :=
  match s with
  | None => false
  | Some EmptyString => false
  | Some (String _ _) => true
  end.

(** [s.startsWith(p)]. *)
Fixpoint startsWith (s p : string) {struct p} : bool :=
  match p, s with
  | EmptyString, _ => true
  | String _ _, EmptyString => false
  | String a p', String b s' => Ascii.eqb a b && startsWith s' p'
  end.

(** [s.includes(t)]: [t] occurs in [s] at some position. *)
Fixpoint includes (s t : string) : bool :=
  startsWith s t ||
  match s with
  | EmptyString => false
  | String _ s' => includes s' t
  end.

(** [arr[i]] for a numeric index: [undefined] ([None]) outside the array. *)
Definition index {A} (arr : list A) (i : Z) : option A :=
  if i <? 0 then None else nth_error arr (Z.to_nat i).

(** [arr.slice(0, e)]: a negative end counts from the end of the array. *)
Definition slice0 {A} (arr : list A) (e : Z) : list A :=
  if e <? 0
  then firstn (Z.to_nat (Z.max (Z.of_nat (List.length arr) + e) 0)) arr
  else firstn (Z.to_nat e) arr.

(** [Array.prototype.sort(comparefn)].  ECMAScript requires the sort to be
    stable and reads a [NaN] answer of the comparator as [+0]
    ([SortCompare]).  The algorithm itself is left to the engine; it is
    modelled here as the stable insertion sort, which gives the engine's
    result whenever the comparator is a consistent ordering; for a
    comparator that is not (a [NaN] among its answers) the engine may
    order the array otherwise. *)
Section Sort.
Context {A : Type}.
Variable comparefn : A -> A -> num.

Definition SortCompare (x y : A) : Z :=
  match comparefn x y with
  | NaN => 0
  | Fin v => v
  end.

(** [x] stood before every element of [l] in the array being sorted:
    it moves behind [y] only when [comparefn x y > 0]. *)
Fixpoint insert (x : A) (l : list A) : list A :=
  match l with
  | [] => [x]
  | y :: l' => if 0 <? SortCompare x y then y :: insert x l' else x :: l
  end.

Definition sort (l : list A) : list A := fold_right insert [] l.
End Sort.

(** *** [parseInt(s)] with the default radix

    The value is kept as an integer: it is the number the code gets for
    values up to 2^53, above which the number of the code is rounded.
    White space is the ASCII white space. *)

Definition isWhiteSpace (c : ascii) : bool :=
  let n := nat_of_ascii c in
  ((9 <=? n) && (n <=? 13))%nat || (n =? 32)%nat.

Fixpoint trimStart (s : string) : string :=
  match s with
  | String c s' => if isWhiteSpace c then trimStart s' else s
  | EmptyString => s
  end.

(** Value of a digit in the given radix (10 or 16). *)
Definition digitValue (radix : Z) (c : ascii) : option Z :=
  let n := Z.of_nat (nat_of_ascii c) in
  let v :=
    if (48 <=? n) && (n <=? 57) then Some (n - 48)
    else if (97 <=? n) && (n <=? 102) then Some (n - 87)
    else if (65 <=? n) && (n <=? 70) then Some (n - 55)
    else None in
  match v with
  | Some d => if d <? radix then Some d else None
  | None => None
  end.

(** Longest prefix of digits, accumulated left to right; [None] when the
    prefix is empty. *)
Fixpoint digits (radix : Z) (acc : option Z) (s : string) : option Z :=
  match s with
  | EmptyString => acc
  | String c s' =>
      match digitValue radix c with
      | Some d =>
          digits radix
            (Some (radix * match acc with Some a => a | None => 0 end + d)) s'
      | None => acc
      end
  end.

Definition parseInt (input : string) : num :=
  let s := trimStart input in
  let '(sign, s) :=
    match s with
    | String "-" s' => (-1, s')
    | String "+" s' => (1, s')
    | _ => (1, s)
    end in
  let '(radix, s) :=
    match s with
    | String "0" (String "x" s') => (16, s')
    | String "0" (String "X" s') => (16, s')
    | _ => (10, s)
    end in
  match digits radix None s with
  | None => NaN
  | Some v => Fin (sign * v)
  end.

(** *** Printing numbers *)

Definition digitChar (d : Z) : ascii := ascii_of_nat (Z.to_nat (48 + d)).

(** Decimal digits of a non-negative integer, most significant first;
    [fuel] bounds the number of digits. *)
Fixpoint natToString (fuel : nat) (n : Z) (acc : string) : string :=
  match fuel with
  | O => acc
  | S fuel' =>
      let acc' := String (digitChar (n mod 10)) acc in
      if n <? 10 then acc' else natToString fuel' (n / 10) acc'
  end.

Definition intToString (n : Z) : string :=
  natToString (S (Z.to_nat (Z.log2_up (n + 1)))) n "".

(** [(n / d).toFixed(2)] for [0 <= n], [0 < d]: the hundredths nearest to
    the quotient (the larger one on a tie), printed with two decimals. *)
Definition hundredths (n d : Z) : Z := (200 * n + d) / (2 * d).

Definition toFixed2 (n d : Z) : string :=
  let h := hundredths n d in
  intToString (h / 100) ++ "." ++
  String (digitChar (h / 10 mod 10)) (String (digitChar (h mod 10)) "").

(** [s] without the zeros that end it. *)
Fixpoint dropTrailingZeros (s : string) : string :=
  match s with
  | EmptyString => EmptyString
  | String c s' =>
      match dropTrailingZeros s' with
      | EmptyString => if Ascii.eqb c "0" then EmptyString else String c EmptyString
      | r => String c r
      end
  end.

(** [s] cut at its first ["."]: what stands before, and what stands after
    when there is a point. *)
Fixpoint splitPoint (s : string) : string * option string :=
  match s with
  | EmptyString => (EmptyString, None)
  | String c s' =>
      if Ascii.eqb c "."
      then (EmptyString, Some s')
      else let '(i, f) := splitPoint s' in (String c i, f)
  end.

(** [String(parseFloat(s))] for [s] a fixed-point decimal as [toFixed]
    prints it: the shortest decimal of the same value, that is [s] without
    the zeros that end its fraction, and without the point when no
    fraction digit is left. *)
Definition parseFloatToString (s : string) : string :=
  match splitPoint s with
  | (i, None) => i
  | (i, Some f) =>
      match dropTrailingZeros f with
      | EmptyString => i
      | f' => i ++ "." ++ f'
      end
  end.

(** [Math.floor(Math.log(b) / Math.log(k))] for [0 < b] and [2 <= k], in
    exact arithmetic: the number of times [b] can be divided by [k] before
    it drops below [k].  For [k = 1024] the computation in doubles gives
    this value for [1 <= b < 1024^4]; above, the rounded quotient of the
    logarithms can reach the next integer just below a power of 1024. *)
Fixpoint floorLogFrom (fuel : nat) (k b : Z) : Z :=
  match fuel with
  | O => 0
  | S fuel' => if b <? k then 0 else 1 + floorLogFrom fuel' k (b / k)
  end.

Definition floorLog (k b : Z) : Z := floorLogFrom (Z.to_nat (Z.log2 b)) k b.

(** [a > b] on numbers: false as soon as one side is [NaN]. *)
Definition gt (a b : num) : bool :=
  match a, b with
  | Fin x, Fin y => y <? x
  | _, _ => false
  end.

End JS.

(** ** [services/googleDriveService.ts] *)

Module Service.

Definition FOLDER_ID : string := "1T_ahaYDTMRof2SZgzJPaV0BiRQQRpi2f".

Record DriveFile : Type := {
  id : string;
  name : string;
  mimeType : string;
  size : option string;
  modifiedTime : string;
  webViewLink : string;
  webContentLink : string;
  thumbnailLink : option string
}.

(** The service object; [apiKey] is set from a constant when the single
    instance is built. *)
Record GoogleDriveService : Type := { apiKey : string }.

(** A listing request: the folder whose children are asked for, the key
    and the field projection. *)
Record Request : Type := {
  parent : string;
  key : string;
  fields : string
}.

Definition requestUrl (r : Request) : string :=
  "https://www.googleapis.com/drive/v3/files?q='" ++ parent r ++
  "'+in+parents&key=" ++ key r ++ "&fields=" ++ fields r.

(** What [fetch] and [response.json()] can give: no response at all, or a
    response with its [ok] flag, its status and, when the body is a JSON
    object with a [files] array, that array. *)
Inductive FetchResult : Type :=
| TransportFailure
| Response (ok : bool) (status : Z) (files : option (list DriveFile)).

Inductive Error : Type :=
| FetchRejected
| HttpError (status : Z)
| BodyError.

Definition isSupported (file : DriveFile) : bool :=
  (mimeType file =? "application/pdf")%string ||
  (mimeType file =? "application/vnd.openxmlformats-officedocument.spreadsheetml.sheet")%string ||
  (mimeType file =? "application/vnd.ms-excel")%string ||
  (mimeType file =? "application/vnd.google-apps.folder")%string.

Section Methods.
Variable fetch : Request -> FetchResult.
Variable this : GoogleDriveService.

(** The request [getFilesFromFolder] sends.  The method declares no
    parameter: the folder asked for is the constant [FOLDER_ID]. *)
Definition listingRequest : Request :=
  {| parent := FOLDER_ID;
     key := apiKey this;
     fields := "files(id,name,mimeType,size,modifiedTime,webViewLink,webContentLink,thumbnailLink)" |}.

Definition getFilesFromFolder : Error + list DriveFile :=
  match fetch listingRequest with
  | TransportFailure => inl FetchRejected
  | Response false status _ => inl (HttpError status)
  | Response true _ None => inl BodyError
  | Response true _ (Some files) => inr (filter isSupported files)
  end.

Definition getFileViewUrl (fileId mimeType : string) : string :=
  if (mimeType =? "application/vnd.google-apps.folder")%string then
    "https://drive.google.com/drive/folders/" ++ fileId
  else if (mimeType =? "application/pdf")%string then
    "https://drive.google.com/file/d/" ++ fileId ++ "/preview"
  else
    "https://docs.google.com/spreadsheets/d/" ++ fileId ++ "/edit?usp=sharing".

Definition getFileDownloadUrl (fileId : string) : string :=
  "https://drive.google.com/uc?export=download&id=" ++ fileId.
End Methods.

End Service.

(** ** [components/GoogleDrivePriceListManager.tsx] *)

Module Manager.

Inductive FileType : Type := pdf | excel | folder.

Record PriceListFile : Type := {
  id : string;
  name : string;
  type : FileType;
  size : string;
  modifiedTime : JS.num;      (* time value of the [Date]; [NaN] when invalid *)
  viewUrl : string;
  downloadUrl : string;
  isFolder : bool
}.

Record BreadcrumbItem : Type := {
  crumbId : string;           (* field [id] *)
  crumbName : string          (* field [name] *)
}.

Inductive SortOption : Type := name_asc | name_desc | date_asc | date_desc.

(** *** Size formatting *)

Definition sizes : list string := ["Bytes"; "KB"; "MB"; "GB"].

Definition formatFileSize (bytes : JS.num) : string :=
  match bytes with
  | JS.Fin 0 => "0 Bytes"
  | JS.Fin b =>
      if 0 <? b then
        let k := 1024 in
        let i := JS.floorLog k b in
        JS.parseFloatToString (JS.toFixed2 b (k ^ i)) ++ " " ++
        nth (Z.to_nat i) sizes "undefined"
      else
        (* [Math.log] of a negative number is [NaN] *)
        "NaN undefined"
  | JS.NaN => "NaN undefined"
  end.

(** *** Navigation state and its handlers *)

Record NavState : Type := {
  currentFolderId : string;
  breadcrumbs : list BreadcrumbItem
}.

Definition initialState : NavState :=
  {| currentFolderId := ""; breadcrumbs := [] |}.

Inductive exn : Type := TypeError.

(** An event handler: it runs on the component state, changes it through
    the setters and either returns or raises. *)
Definition handler (A : Type) : Type := NavState -> (exn + A) * NavState.

Definition ret {A} (a : A) : handler A := fun s => (inr a, s).

Definition bind {A B} (m : handler A) (f : A -> handler B) : handler B :=
  fun s =>
    match m s with
    | (inl e, s') => (inl e, s')
    | (inr a, s') => f a s'
    end.

Definition throw {A} (e : exn) : handler A := fun s => (inl e, s).

Definition getBreadcrumbs : handler (list BreadcrumbItem) :=
  fun s => (inr (breadcrumbs s), s).

Definition setCurrentFolderId (v : string) : handler unit :=
  fun s => (inr tt, {| currentFolderId := v; breadcrumbs := breadcrumbs s |}).

Definition setBreadcrumbs (f : list BreadcrumbItem -> list BreadcrumbItem)
  : handler unit :=
  fun s => (inr tt, {| currentFolderId := currentFolderId s;
                       breadcrumbs := f (breadcrumbs s) |}).

(** Reading [.id] of what an array access gave: a [TypeError] on
    [undefined]. *)
Definition getId (b : option BreadcrumbItem) : handler string :=
  match b with
  | Some item => ret (crumbId item)
  | None => throw TypeError
  end.

Notation "x <- m ;; k" := (bind m (fun x => k))
  (at level 61, m at next level, right associativity).
Notation "m ;; k" := (bind m (fun _ => k))
  (at level 61, right associativity).

Definition navigateToFolder (folderId folderName : string) : handler unit :=
  setCurrentFolderId folderId ;;
  if (folderId =? "")%string then
    setBreadcrumbs (fun _ => [])
  else
    let newBreadcrumb := {| crumbId := folderId; crumbName := folderName |} in
    setBreadcrumbs (fun prev => (prev ++ [newBreadcrumb])%list).

Definition navigateToBreadcrumb (index : Z) : handler unit :=
  if index =? -1 then
    setCurrentFolderId "" ;;
    setBreadcrumbs (fun _ => [])
  else
    crumbs <- getBreadcrumbs ;;
    let targetBreadcrumb := JS.index crumbs index in
    targetId <- getId targetBreadcrumb ;;
    setCurrentFolderId targetId ;;
    setBreadcrumbs (fun prev => JS.slice0 prev (index + 1)).

(** A step of the navigation: one of the two handlers returned. *)
Inductive step (s : NavState) : NavState -> Prop :=
| step_folder folderId folderName s' :
    navigateToFolder folderId folderName s = (inr tt, s') -> step s s'
| step_breadcrumb index s' :
    navigateToBreadcrumb index s = (inr tt, s') -> step s s'.

Inductive reachable : NavState -> Prop :=
| reachable_init : reachable initialState
| reachable_step s s' : reachable s -> step s s' -> reachable s'.

(** *** Loading, filtering and sorting *)

Section Platform.
(** [s.toLowerCase()]. *)
Variable toLowerCase : string -> string.
(** [a.localeCompare(b, 'tr')]: negative, zero or positive. *)
Variable localeCompare : string -> string -> Z.
(** Time value of [new Date(s)]. *)
Variable newDate : string -> JS.num.

Variable fetch : Service.Request -> Service.FetchResult.
Variable driveService : Service.GoogleDriveService.

(** The function mapped over the fetched records in [loadFiles]. *)
Definition processFile (file : Service.DriveFile) : PriceListFile :=
  let isFolder :=
    (Service.mimeType file =? "application/vnd.google-apps.folder")%string in
  let fileType :=
    if negb isFolder then
      if (Service.mimeType file =? "application/pdf")%string then pdf else excel
    else folder in
  {| id := Service.id file;
     name := Service.name file;
     type := fileType;
     size :=
       if JS.truthy (Service.size file) then
         formatFileSize
           (JS.parseInt (match Service.size file with Some s => s | None => "" end))
       else if isFolder then "-" else "Bilinmiyor";
     modifiedTime := newDate (Service.modifiedTime file);
     viewUrl := Service.getFileViewUrl (Service.id file) (Service.mimeType file);
     downloadUrl := Service.getFileDownloadUrl (Service.id file);
     isFolder := isFolder |}.

(** The [try] block of [loadFiles(folderId)] up to [setFiles]: the
    argument is handed to [getFilesFromFolder], which declares no parameter
    and so never reads it.  [inr] is what is handed to [setFiles]; [inl] is
    the error that reaches the [catch] block.  What the component state
    becomes in either case is [loadFilesSettled] below. *)
Definition loadFiles (folderId : option string)
  : Service.Error + list PriceListFile :=
  match Service.getFilesFromFolder fetch driveService with
  | inl e => inl e
  | inr driveFiles => inr (map processFile driveFiles)
  end.

Definition compareFiles (sortOption : SortOption) (a b : PriceListFile)
  : JS.num :=
  if isFolder a && negb (isFolder b) then JS.Fin (-1)
  else if negb (isFolder a) && isFolder b then JS.Fin 1
  else
    match sortOption with
    | name_asc => JS.Fin (localeCompare (name a) (name b))
    | name_desc => JS.Fin (localeCompare (name b) (name a))
    | date_asc => JS.sub (modifiedTime a) (modifiedTime b)
    | date_desc => JS.sub (modifiedTime b) (modifiedTime a)
    end.

Definition sortFiles (files : list PriceListFile) (sortOption : SortOption)
  : list PriceListFile :=
  JS.sort (compareFiles sortOption) files.

Definition matchesSearch (searchTerm : string) (file : PriceListFile) : bool :=
  JS.includes (toLowerCase (name file)) (toLowerCase searchTerm).

Definition filteredAndSortedFiles (files : list PriceListFile)
  (searchTerm : string) (sortOption : SortOption) : list PriceListFile :=
  sortFiles (filter (matchesSearch searchTerm) files) sortOption.
End Platform.

(** *** An ASCII platform, for evaluating examples *)

Definition asciiLower (c : ascii) : ascii :=
  let n := nat_of_ascii c in
  if ((65 <=? n) && (n <=? 90))%nat then ascii_of_nat (n + 32) else c.

Fixpoint asciiToLowerCase (s : string) : string :=
  match s with
  | EmptyString => EmptyString
  | String c s' => String (asciiLower c) (asciiToLowerCase s')
  end.

(** Code-unit order, as a three-way comparison. *)
Definition codeUnitCompare (a b : string) : Z :=
  match String.compare a b with
  | Lt => -1
  | Eq => 0
  | Gt => 1
  end.

(** *** Clicking a row, the header date and the counters *)

(** [handleFileClick]: a folder is entered; any other entry is opened in a
    new tab.  The result is the address handed to [window.open], if any. *)
Definition handleFileClick (file : PriceListFile) : handler (option string) :=
  if isFolder file then
    navigateToFolder (id file) (name file) ;;
    ret None
  else
    ret (Some (viewUrl file)).

(** The date [loadFiles] hands to [setLastUpdate]: the latest modification
    among the entries ([reduce] started from the first entry), or the
    current time [now] when there is no entry. *)
Definition latestModification (now : JS.num) (processedFiles : list PriceListFile)
  : JS.num :=
  match processedFiles with
  | first :: _ =>
      fold_left
        (fun latest file =>
           if JS.gt (modifiedTime file) latest then modifiedTime file else latest)
        processedFiles (modifiedTime first)
  | [] => now
  end.


Section Load.
Variable newDate : string -> JS.num.
Variable fetch : Service.Request -> Service.FetchResult.
Variable driveService : Service.GoogleDriveService.
(** Time value of [new Date()] when the call runs. *)
Variable now : JS.num.

End Load.

Record Stats : Type := {
  folders : nat;
  pdfs : nat;
  excels : nat
}.

Definition isType (t : FileType) (f : PriceListFile) : bool :=
  match t, type f with
  | pdf, pdf | excel, excel | folder, folder => true
  | _, _ => false
  end.

Definition getFileTypeStats (files : list PriceListFile) : Stats :=
  {| folders := List.length (filter isFolder files);
     pdfs := List.length (filter (isType pdf) files);
     excels := List.length (filter (isType excel) files) |}.

End Manager.

(** ** [components/PriceListManager.tsx] *)

Module PriceListManager.

Inductive FileType : Type := pdf | excel.

Record PriceListFile : Type := {
  id : string;
  name : string;
  type : FileType;
  size : Z;
  uploadDate : JS.num;
  url : string;
  category : option string
}.

(** What the component reads of a browser [File]. *)
Record File : Type := {
  fileName : string;
  fileType : string;
  fileSize : Z
}.

Definition categories : list string :=
  ["all"; "products"; "services"; "seasonal"; "bulk"].

Definition isAccepted (file : File) : bool :=
  (fileType file =? "application/pdf")%string ||
  (fileType file =? "application/vnd.openxmlformats-officedocument.spreadsheetml.sheet")%string ||
  (fileType file =? "application/vnd.ms-excel")%string.

Section Upload.
(** What the environment answers at the [i]-th file of the list: the
    identifier built from [Date.now()] and [Math.random()], the address
    given by [URL.createObjectURL] and the time of [new Date()]. *)
Variable freshId : nat -> string.
Variable createObjectURL : nat -> string.
Variable now : nat -> JS.num.

Definition newFile (i : nat) (file : File) : PriceListFile :=
  {| id := freshId i;
     name := fileName file;
     type := if (fileType file =? "application/pdf")%string then pdf else excel;
     size := fileSize file;
     uploadDate := now i;
     url := createObjectURL i;
     category := Some "products" |}.

(** The [forEach] of [handleFileUpload] from position [i] on: an accepted
    file is appended to the state, any other file is skipped. *)
Fixpoint uploadFrom (i : nat) (uploadedFiles : list File)
  (files : list PriceListFile) : list PriceListFile :=
  match uploadedFiles with
  | [] => files
  | file :: rest =>
      uploadFrom (S i) rest
        (if isAccepted file then (files ++ [newFile i file])%list else files)
  end.

Definition handleFileUpload (uploadedFiles : list File)
  (files : list PriceListFile) : list PriceListFile :=
  uploadFrom 0 uploadedFiles files.
End Upload.

Section Filter.
Variable toLowerCase : string -> string.

Definition matchesCategory (selectedCategory : string) (file : PriceListFile)
  : bool :=
  (selectedCategory =? "all")%string ||
  match category file with
  | Some c => (c =? selectedCategory)%string
  | None => false
  end.

Definition filteredFiles (files : list PriceListFile)
  (searchTerm selectedCategory : string) : list PriceListFile :=
  filter
    (fun file =>
       JS.includes (toLowerCase (name file)) (toLowerCase searchTerm) &&
       matchesCategory selectedCategory file)
    files.
End Filter.

Definition deleteFile (i : string) (files : list PriceListFile)
  : list PriceListFile :=
  filter (fun file => negb (id file =? i)%string) files.

Definition updateFileCategory (i c : string) (files : list PriceListFile)
  : list PriceListFile :=
  map
    (fun file =>
       if (id file =? i)%string then
         {| id := id file; name := name file; type := type file;
            size := size file; uploadDate := uploadDate file; url := url file;
            category := Some c |}
       else file)
    files.

End PriceListManager.

(** ** [App.tsx]: the session flag *)

Module App.

(** [localStorage]: the value stored under each key, if any. *)
Definition Storage : Type := string -> option string.

Definition getItem (storage : Storage) (k : string) : option string := storage k.

Definition removeItem (storage : Storage) (k : string) : Storage :=
  fun k' => if (k' =? k)%string then None else storage k'.

Record State : Type := {
  isAuthenticated : bool;
  isLoading : bool
}.

Definition initialState : State :=
  {| isAuthenticated := false; isLoading := true |}.

(** The effect run once when the page is loaded. *)
Definition onMount (storage : Storage) (s : State) : State :=
  let authStatus := getItem storage "priceListAuth" in
  let authenticated :=
    match authStatus with
    | Some v => if (v =? "authenticated")%string then true else isAuthenticated s
    | None => isAuthenticated s
    end in
  {| isAuthenticated := authenticated; isLoading := false |}.

Definition handleAuthenticated (s : State) : State :=
  {| isAuthenticated := true; isLoading := isLoading s |}.

Definition handleLogout (storage : Storage) (s : State) : Storage * State :=
  (removeItem storage "priceListAuth",
   {| isAuthenticated := false; isLoading := isLoading s |}).

Inductive View : Type :=
| Spinner
| PasswordProtection
| PriceListWithLogout.

Definition render (s : State) : View :=
  if isLoading s then Spinner
  else if negb (isAuthenticated s) then PasswordProtection
  else PriceListWithLogout.

End App.

(** ** Notions used to state the properties *)

Module Spec.
Import Manager.

(** The kinds the listing keeps: the document MIME types the service
    names and the folder marker. *)
Definition allowedMimeTypes : list string :=
  [ "application/pdf";
    "application/vnd.openxmlformats-officedocument.spreadsheetml.sheet";
    "application/vnd.ms-excel";
    "application/vnd.google-apps.folder" ].

Definition isAllowed (file : Service.DriveFile) : bool :=
  existsb (String.eqb (Service.mimeType file)) allowedMimeTypes.

(** The folder a listing for [folderId] is expected to ask for. *)
Definition requestedFolder (folderId : option string) : string :=
  if JS.truthy folderId
  then match folderId with Some f => f | None => "" end
  else Service.FOLDER_ID.

(** Navigation invariant: the trail is empty exactly at the root, and a
    non-empty trail ends with the current folder. *)
Definition invariant (s : NavState) : Prop :=
  (breadcrumbs s = [] <-> currentFolderId s = "") /\
  (forall front item,
      breadcrumbs s = (front ++ [item])%list ->
      crumbId item = currentFolderId s).

(** The invariant together with what makes it inductive: no entry of the
    trail names the root. *)
Definition strongInvariant (s : NavState) : Prop :=
  invariant s /\ Forall (fun item => crumbId item <> "") (breadcrumbs s).

Definition inRange (s : NavState) (index : Z) : Prop :=
  0 <= index < Z.of_nat (List.length (breadcrumbs s)).

(** Entries with a given display name and folder status. *)
Definition sameNameAndStatus (n : string) (f : bool) (e : PriceListFile) : bool :=
  (name e =? n)%string && Bool.eqb (isFolder e) f.

Definition numEqb (a b : JS.num) : bool :=
  match a, b with
  | JS.NaN, JS.NaN => true
  | JS.Fin x, JS.Fin y => x =? y
  | _, _ => false
  end.

(** Entries that a sort key cannot tell from [ref]: same folder status
    and, by the key, same display name or same modification time. *)
Definition tiedWith (sortOption : SortOption) (ref e : PriceListFile) : bool :=
  Bool.eqb (isFolder e) (isFolder ref) &&
  match sortOption with
  | name_asc | name_desc => (name e =? name ref)%string
  | date_asc | date_desc => numEqb (modifiedTime e) (modifiedTime ref)
  end.

(** A string without a decimal point. *)
Definition noPoint (s : string) : bool :=
  forallb (fun c => negb (Ascii.eqb c ".")) (list_ascii_of_string s).

(** A list made of a run of [p] elements followed by a run of elements
    that are not [p]. *)
Fixpoint blocks {A} (p : A -> bool) (l : list A) : bool :=
  match l with
  | [] => true
  | x :: l' => if p x then blocks p l' else forallb (fun y => negb (p y)) l'
  end.

(** A count of hundredths printed as the shortest decimal: no fraction
    for a whole number, one digit when the second would be zero. *)
Definition trimmedDecimal (h : Z) : string :=
  JS.intToString (h / 100) ++
  (if h mod 100 =? 0 then ""
   else if h mod 10 =? 0 then
     String "." (String (JS.digitChar (h / 10 mod 10)) "")
   else
     String "." (String (JS.digitChar (h / 10 mod 10))
                   (String (JS.digitChar (h mod 10)) ""))).

(** An entry whose date was parsed. *)
Definition hasValidDate (e : PriceListFile) : Prop :=
  exists t, modifiedTime e = JS.Fin t.

(** A character that [parseInt] reads as a decimal digit. *)
Definition isDigitChar (c : ascii) : bool :=
  match JS.digitValue 10 c with
  | Some _ => true
  | None => false
  end.

(** A string that is empty or begins with a decimal digit. *)
Definition digitHead (s : string) : Prop :=
  match s with
  | EmptyString => True
  | String c _ => isDigitChar c = true
  end.

End Spec.

(** ** Sample data *)

Module Examples.
Import Manager.

Definition svc : Service.GoogleDriveService := {| Service.apiKey := "k" |}.

Definition driveFile (i n m : string) (sz : option string) : Service.DriveFile :=
  {| Service.id := i; Service.name := n; Service.mimeType := m;
     Service.size := sz; Service.modifiedTime := "2024-01-01T00:00:00.000Z";
     Service.webViewLink := ""; Service.webContentLink := "";
     Service.thumbnailLink := None |}.

Definition subFolder : Service.DriveFile :=
  driveFile "sub-1" "2024" "application/vnd.google-apps.folder" None.
Definition rootReport : Service.DriveFile :=
  driveFile "f-1" "prices.pdf" "application/pdf" (Some "1536").
Definition rootImage : Service.DriveFile :=
  driveFile "f-2" "logo.png" "image/png" (Some "2048").
Definition subReport : Service.DriveFile :=
  driveFile "f-3" "january.pdf" "application/pdf" (Some "1024").
Definition sizedFolder : Service.DriveFile :=
  driveFile "sub-2" "archive" "application/vnd.google-apps.folder" (Some "1024").
Definition badSize : Service.DriveFile :=
  driveFile "f-4" "broken.pdf" "application/pdf" (Some "abc").
Definition noSize : Service.DriveFile :=
  driveFile "f-5" "sheet.xls" "application/vnd.ms-excel" None.

(** A remote store: the root holds a folder and two files, the folder
    holds one file. *)
Definition children (parentId : string) : list Service.DriveFile :=
  if (parentId =? Service.FOLDER_ID)%string then [subFolder; rootReport; rootImage]
  else if (parentId =? "sub-1")%string then [subReport]
  else [].

Definition driveFetch (r : Service.Request) : Service.FetchResult :=
  Service.Response true 200 (Some (children (Service.parent r))).

Definition noDate (s : string) : JS.num := JS.NaN.

Definition entry (n : string) (f : bool) (t : Z) : PriceListFile :=
  {| id := n; name := n; type := if f then folder else pdf; size := "-";
     modifiedTime := JS.Fin t; viewUrl := ""; downloadUrl := "";
     isFolder := f |}.

Definition crumb (i : string) : BreadcrumbItem :=
  {| crumbId := i; crumbName := i |}.

Definition twoDeep : NavState :=
  {| currentFolderId := "b"; breadcrumbs := [crumb "a"; crumb "b"] |}.

(** A comparator that is a total preorder: by length. *)
Definition lengthCompare (a b : string) : Z :=
  Z.of_nat (String.length a) - Z.of_nat (String.length b).

Definition upload (n t : string) (sz : Z) : PriceListManager.File :=
  {| PriceListManager.fileName := n; PriceListManager.fileType := t;
     PriceListManager.fileSize := sz |}.

Definition stored (i n : string) (c : option string) : PriceListManager.PriceListFile :=
  {| PriceListManager.id := i; PriceListManager.name := n;
     PriceListManager.type := PriceListManager.pdf; PriceListManager.size := 10;
     PriceListManager.uploadDate := JS.Fin 0; PriceListManager.url := "";
     PriceListManager.category := c |}.

Definition loggedIn : App.Storage :=
  fun k => if (k =? "priceListAuth")%string then Some "authenticated" else None.

End Examples.

(** * Properties *)

(** ** Facts about the runtime fragment *)

Module JSFacts.
Import JS.

Lemma startsWith_spec (s p : string) :
  startsWith s p = true <-> exists post, s = p ++ post.
Proof.
  revert s; induction p as [|a p IH]; intros s; simpl.
  - split; [intros _; now exists s | reflexivity].
  - destruct s as [|b s].
    + split; [discriminate | intros [post H]; discriminate].
    + rewrite andb_true_iff, IH, Ascii.eqb_eq. split.
      * intros [-> [post ->]]. now exists post.
      * intros [post H]. injection H as -> ->. split; [reflexivity | now exists post].
Qed.

(** [includes] is the substring relation. *)
Lemma includes_spec (s t : string) :
  includes s t = true <-> exists pre post, s = pre ++ t ++ post.
Proof.
  induction s as [|c s IH]; simpl.
  - rewrite orb_false_r, startsWith_spec. split.
    + intros [post H]. now exists "", post.
    + intros [pre [post H]]. destruct pre; [now exists post | discriminate].
  - rewrite orb_true_iff, IH, startsWith_spec. split.
    + intros [[post H] | [pre [post H]]].
      * now exists "", post.
      * exists (String c pre), post. simpl. now rewrite H.
    + intros [pre [post H]]. destruct pre as [|c' pre]; simpl in H.
      * left. now exists post.
      * right. injection H as _ H. now exists pre, post.
Qed.

Lemma includes_empty (s : string) : includes s "" = true.
Proof. destruct s; reflexivity. Qed.

Section SortFacts.
Context {A : Type}.
Variable comparefn : A -> A -> num.

Lemma insert_perm (x : A) (l : list A) :
  Permutation (insert comparefn x l) (x :: l).
Proof.
  induction l as [|y l IH]; simpl.
  - apply Permutation_refl.
  - destruct (0 <? SortCompare comparefn x y).
    + eapply perm_trans; [apply perm_skip, IH | apply perm_swap].
    + apply Permutation_refl.
Qed.

(** The sorted array holds the elements of the array, each as often. *)
Lemma sort_perm (l : list A) : Permutation (sort comparefn l) l.
Proof.
  induction l as [|x l IH]; simpl.
  - apply perm_nil.
  - eapply perm_trans; [apply insert_perm | apply perm_skip, IH].
Qed.

Lemma forallb_insert (p : A -> bool) (x : A) (l : list A) :
  forallb p (insert comparefn x l) = p x && forallb p l.
Proof.
  induction l as [|y l IH]; simpl.
  - reflexivity.
  - destruct (0 <? SortCompare comparefn x y); simpl.
    + rewrite IH. now rewrite !andb_assoc, (andb_comm (p y)).
    + reflexivity.
Qed.

(** Stability: elements that the comparator never orders strictly
    (a class [K] on which [SortCompare] is never positive) occur in the
    sorted array in the order they had. *)
Section Stable.
Variable K : A -> bool.
Hypothesis K_tied :
  forall x y, K x = true -> K y = true -> SortCompare comparefn x y <= 0.

Lemma filter_insert (x : A) (l : list A) :
  filter K (insert comparefn x l) = filter K (x :: l).
Proof.
  induction l as [|y l IH]; [reflexivity|].
  simpl insert. destruct (0 <? SortCompare comparefn x y) eqn:E.
  - apply Z.ltb_lt in E.
    change (filter K (y :: insert comparefn x l))
      with (if K y then y :: filter K (insert comparefn x l)
            else filter K (insert comparefn x l)).
    rewrite IH. simpl.
    destruct (K x) eqn:Kx, (K y) eqn:Ky; try reflexivity.
    specialize (K_tied x y Kx Ky). lia.
  - reflexivity.
Qed.

Lemma filter_sort (l : list A) :
  filter K (sort comparefn l) = filter K l.
Proof.
  induction l as [|x l IH]; [reflexivity|].
  simpl sort. rewrite filter_insert. simpl. now rewrite IH.
Qed.
End Stable.

(** Two-block shape: when the comparator puts every [p] element strictly
    before every other element, the sorted array is its [p] elements
    followed by the others. *)
Section Blocks.
Variable p : A -> bool.
Hypothesis p_first :
  forall x y, p x = true -> p y = false -> SortCompare comparefn x y < 0.
Hypothesis p_last :
  forall x y, p x = false -> p y = true -> 0 < SortCompare comparefn x y.

Lemma blocks_insert (x : A) (l : list A) :
  Spec.blocks p l = true -> Spec.blocks p (insert comparefn x l) = true.
Proof.
  induction l as [|y l IH]; simpl.
  - now destruct (p x).
  - intros H. destruct (0 <? SortCompare comparefn x y) eqn:E; simpl.
    + apply Z.ltb_lt in E. destruct (p y) eqn:Py.
      * now apply IH.
      * rewrite forallb_insert, H, andb_true_r.
        destruct (p x) eqn:Px; [|reflexivity].
        specialize (p_first x y Px Py). lia.
    + apply Z.ltb_ge in E. destruct (p x) eqn:Px; [exact H|].
      destruct (p y) eqn:Py; simpl.
      * specialize (p_last x y Px Py). lia.
      * exact H.
Qed.

Lemma blocks_sort (l : list A) : Spec.blocks p (sort comparefn l) = true.
Proof.
  induction l as [|x l IH]; [reflexivity|].
  simpl. now apply blocks_insert.
Qed.

Lemma blocks_split (l : list A) :
  Spec.blocks p l = true ->
  exists front back,
    l = (front ++ back)%list /\
    forallb p front = true /\
    forallb (fun y => negb (p y)) back = true.
Proof.
  induction l as [|x l IH]; simpl; intros H.
  - now exists [], [].
  - destruct (p x) eqn:Px.
    + destruct (IH H) as (front & back & -> & Hf & Hb).
      exists (x :: front), back. simpl. now rewrite Px, Hf.
    + exists [], (x :: l). simpl. now rewrite Px, H.
Qed.
End Blocks.
End SortFacts.

(** [floorLog] is the floor of the logarithm. *)
Lemma floorLogFrom_bounds (k : Z) (Hk : 2 <= k) (fuel : nat) :
  forall b, 0 < b -> b < 2 ^ (Z.of_nat fuel + 1) ->
    0 <= floorLogFrom fuel k b /\
    k ^ floorLogFrom fuel k b <= b < k ^ (floorLogFrom fuel k b + 1).
Proof.
  induction fuel as [|fuel IH]; intros b Hb Hlt.
  - cbn [floorLogFrom]. change (Z.of_nat 0 + 1) with 1 in Hlt.
    change (0 + 1) with 1. rewrite Z.pow_1_r in *. rewrite Z.pow_0_r. lia.
  - cbn [floorLogFrom]. destruct (b <? k) eqn:E.
    + apply Z.ltb_lt in E. change (0 + 1) with 1.
      rewrite Z.pow_1_r, Z.pow_0_r. lia.
    + apply Z.ltb_ge in E.
      assert (Hq : 0 < b / k) by (apply Z.div_str_pos; lia).
      assert (Hq2 : b / k < 2 ^ (Z.of_nat fuel + 1)).
      { apply Z.div_lt_upper_bound; [lia|].
        replace (Z.of_nat (S fuel) + 1) with (Z.succ (Z.of_nat fuel + 1)) in Hlt by lia.
        rewrite Z.pow_succ_r in Hlt by lia.
        assert (0 < 2 ^ (Z.of_nat fuel + 1)) by (apply Z.pow_pos_nonneg; lia).
        nia. }
      destruct (IH (b / k) Hq Hq2) as [H0 [Hlo Hhi]].
      set (i := floorLogFrom fuel k (b / k)) in *.
      split; [lia|].
      replace (1 + i) with (Z.succ i) by lia.
      replace (Z.succ i + 1) with (Z.succ (i + 1)) by lia.
      rewrite !Z.pow_succ_r by lia.
      pose proof (Z.mul_div_le b k ltac:(lia)).
      pose proof (Z.mod_pos_bound b k ltac:(lia)).
      pose proof (Z.div_mod b k ltac:(lia)).
      split; nia.
Qed.

Lemma floorLog_bounds (k b : Z) :
  2 <= k -> 0 < b ->
  0 <= floorLog k b /\ k ^ floorLog k b <= b < k ^ (floorLog k b + 1).
Proof.
  intros Hk Hb. apply floorLogFrom_bounds; [exact Hk | exact Hb |].
  rewrite Z2Nat.id by apply Z.log2_nonneg.
  replace (Z.log2 b + 1) with (Z.succ (Z.log2 b)) by lia.
  apply Z.log2_spec. exact Hb.
Qed.

End JSFacts.

(** ** The listing client *)

Section ServiceProperties.
Import Service.

(** C2.  The listing is expected to ask for the children of the folder it
    is given, the configured root standing in for an empty or absent
    identifier.  [getFilesFromFolder] declares no parameter: whatever
    [loadFiles] hands it, the request names [FOLDER_ID].  On the sample
    store, loading the subfolder ["sub-1"] yields the entries of the root
    and not those of the subfolder. *)
Theorem loadFiles_lists_root_for_subfolder :
  (forall newDate fetch this folderId,
      Manager.loadFiles newDate fetch this folderId
      = Manager.loadFiles newDate fetch this None) /\
  (forall this, parent (listingRequest this) = FOLDER_ID) /\
  Spec.requestedFolder (Some "sub-1") = "sub-1" /\
  parent (listingRequest Examples.svc) <> Spec.requestedFolder (Some "sub-1") /\
  Manager.loadFiles Examples.noDate Examples.driveFetch Examples.svc (Some "sub-1")
  = inr (map (Manager.processFile Examples.noDate)
           [Examples.subFolder; Examples.rootReport]) /\
  Manager.loadFiles Examples.noDate Examples.driveFetch Examples.svc (Some "sub-1")
  <> inr (map (Manager.processFile Examples.noDate) [Examples.subReport]).
Proof.
  repeat split; try reflexivity; vm_compute; discriminate.
Qed.

Lemma isSupported_isAllowed (file : DriveFile) :
  isSupported file = Spec.isAllowed file.
Proof.
  unfold isSupported, Spec.isAllowed, Spec.allowedMimeTypes. simpl.
  now rewrite orb_false_r, !orb_assoc.
Qed.

(** C9.  On a successful response the listing returns exactly the
    returned records whose MIME type is one of the allowed kinds, in the
    order of the response; every other record is dropped. *)
Theorem getFilesFromFolder_keeps_allowed
  (fetch : Request -> FetchResult) (this : GoogleDriveService)
  (status : Z) (files : list DriveFile) :
  fetch (listingRequest this) = Response true status (Some files) ->
  getFilesFromFolder fetch this = inr (filter Spec.isAllowed files) /\
  (forall file,
      In file (filter Spec.isAllowed files) <->
      In file files /\ In (mimeType file) Spec.allowedMimeTypes).
Proof.
  intros Hresp. unfold getFilesFromFolder. rewrite Hresp. split.
  - f_equal. apply filter_ext. exact isSupported_isAllowed.
  - intros file. rewrite filter_In. unfold Spec.isAllowed.
    rewrite existsb_exists. split.
    + intros [Hin [m [Hm Heq]]]. apply String.eqb_eq in Heq.
      split; [exact Hin | now rewrite Heq].
    + intros [Hin Hm]. split; [exact Hin|].
      exists (mimeType file). split; [exact Hm | apply String.eqb_refl].
Qed.

Lemma getFilesFromFolder_keeps_allowed_witness :
  Examples.driveFetch (listingRequest Examples.svc)
  = Response true 200 (Some (Examples.children FOLDER_ID)) /\
  getFilesFromFolder Examples.driveFetch Examples.svc
  = inr [Examples.subFolder; Examples.rootReport].
Proof.
  split; [reflexivity|].
  exact (proj1 (getFilesFromFolder_keeps_allowed
                  Examples.driveFetch Examples.svc 200
                  (Examples.children FOLDER_ID) eq_refl)).
Defined.

End ServiceProperties.

(** ** Navigation *)

Section NavigationProperties.
Import Manager.

Lemma navigateToFolder_run (folderId folderName : string) (s : NavState) :
  navigateToFolder folderId folderName s =
  (inr tt,
   if (folderId =? "")%string
   then {| currentFolderId := folderId; breadcrumbs := [] |}
   else {| currentFolderId := folderId;
           breadcrumbs :=
             (breadcrumbs s ++ [{| crumbId := folderId; crumbName := folderName |}])%list |}).
Proof.
  unfold navigateToFolder, bind, setCurrentFolderId, setBreadcrumbs.
  now destruct (folderId =? "")%string.
Qed.

Lemma navigateToBreadcrumb_root (s : NavState) :
  navigateToBreadcrumb (-1) s = (inr tt, initialState).
Proof. reflexivity. Qed.

Lemma navigateToBreadcrumb_run (index : Z) (s : NavState) :
  index <> -1 ->
  navigateToBreadcrumb index s =
  match JS.index (breadcrumbs s) index with
  | None => (inl TypeError, s)
  | Some target =>
      (inr tt, {| currentFolderId := crumbId target;
                  breadcrumbs := JS.slice0 (breadcrumbs s) (index + 1) |})
  end.
Proof.
  intros Hne. unfold navigateToBreadcrumb.
  destruct (index =? -1) eqn:E; [apply Z.eqb_eq in E; contradiction|].
  unfold bind, getBreadcrumbs, getId.
  now destruct (JS.index (breadcrumbs s) index).
Qed.

Lemma index_out_of_range {A} (arr : list A) (i : Z) :
  ~ (0 <= i < Z.of_nat (List.length arr)) -> JS.index arr i = None.
Proof.
  intros H. unfold JS.index. destruct (i <? 0) eqn:E; [reflexivity|].
  apply Z.ltb_ge in E. apply nth_error_None. lia.
Qed.

Lemma index_in_range {A} (arr : list A) (i : Z) :
  0 <= i < Z.of_nat (List.length arr) ->
  exists x, JS.index arr i = Some x /\
            JS.slice0 arr (i + 1) = (firstn (Z.to_nat i) arr ++ [x])%list.
Proof.
  intros [H0 Hlt]. unfold JS.index, JS.slice0.
  destruct (i <? 0) eqn:E; [apply Z.ltb_lt in E; lia|].
  destruct (i + 1 <? 0) eqn:E1; [apply Z.ltb_lt in E1; lia|].
  replace (Z.to_nat (i + 1)) with (S (Z.to_nat i)) by lia.
  assert (Hn : (Z.to_nat i < List.length arr)%nat) by lia.
  revert Hn. generalize (Z.to_nat i) as n. clear.
  induction arr as [|a arr IH]; intros n Hn; simpl in Hn; [lia|].
  destruct n as [|n].
  - exists a. split; reflexivity.
  - destruct (IH n ltac:(lia)) as [x [Hx Hs]].
    exists x. split; [exact Hx|].
    change (firstn (S (S n)) (a :: arr)) with (a :: firstn (S n) arr).
    now rewrite Hs.
Qed.

(** The claim of C5 as it is worded does not hold: at the root, with an
    empty trail, index [0] is out of range and the handler raises. *)
Lemma navigateToBreadcrumb_out_of_range_not_noop :
  ~ (forall s index,
        index <> -1 -> ~ Spec.inRange s index ->
        navigateToBreadcrumb index s = (inr tt, s)).
Proof.
  intros H. specialize (H initialState 0).
  assert (Hne : 0 <> -1) by lia.
  assert (Hout : ~ Spec.inRange initialState 0)
    by (unfold Spec.inRange; simpl; lia).
  specialize (H Hne Hout). vm_compute in H. discriminate H.
Qed.

(** C5 (amended).  For an index that is neither [-1] nor a position of
    the trail, [navigateToBreadcrumb] raises a [TypeError] (it reads [.id]
    of [undefined]) before any setter runs: the current folder and the
    trail are left as they were. *)
Theorem navigateToBreadcrumb_out_of_range_raises (s : NavState) (index : Z) :
  index <> -1 -> ~ Spec.inRange s index ->
  navigateToBreadcrumb index s = (inl TypeError, s).
Proof.
  intros Hne Hout. rewrite navigateToBreadcrumb_run by exact Hne.
  now rewrite (index_out_of_range _ _ Hout).
Qed.

Lemma navigateToBreadcrumb_out_of_range_raises_witness :
  navigateToBreadcrumb 2 Examples.twoDeep = (inl TypeError, Examples.twoDeep).
Proof.
  apply navigateToBreadcrumb_out_of_range_raises.
  - lia.
  - unfold Spec.inRange. simpl. lia.
Defined.

Lemma strongInvariant_root : Spec.strongInvariant initialState.
Proof.
  split; [split|]; simpl.
  - tauto.
  - intros front item H. now destruct front.
  - constructor.
Qed.

Lemma strongInvariant_push (folderId folderName : string) (s : NavState) :
  folderId <> "" ->
  Forall (fun item => crumbId item <> "") (breadcrumbs s) ->
  Spec.strongInvariant
    {| currentFolderId := folderId;
       breadcrumbs :=
         (breadcrumbs s ++ [{| crumbId := folderId; crumbName := folderName |}])%list |}.
Proof.
  intros Hne Hall. split; [split|]; simpl.
  - split; [intros H; now destruct (breadcrumbs s) | intros H; contradiction].
  - intros front item H. apply app_inj_tail in H. destruct H as [_ <-]. reflexivity.
  - apply Forall_app. split; [exact Hall | now repeat constructor].
Qed.

Lemma strongInvariant_cut (n : nat) (target : BreadcrumbItem) (s : NavState) :
  nth_error (breadcrumbs s) n = Some target ->
  Forall (fun item => crumbId item <> "") (breadcrumbs s) ->
  Spec.strongInvariant
    {| currentFolderId := crumbId target;
       breadcrumbs := (firstn n (breadcrumbs s) ++ [target])%list |}.
Proof.
  intros Hnth Hall.
  assert (Htarget : crumbId target <> "").
  { rewrite Forall_forall in Hall. apply Hall. eapply nth_error_In, Hnth. }
  split; [split|]; simpl.
  - split; [intros H; now destruct (firstn n (breadcrumbs s)) | intros H; contradiction].
  - intros front item H. apply app_inj_tail in H. destruct H as [_ <-]. reflexivity.
  - apply Forall_app. split; [|now repeat constructor].
    rewrite <- (firstn_skipn n (breadcrumbs s)) in Hall.
    now apply Forall_app in Hall.
Qed.

Lemma step_strongInvariant (s s' : NavState) :
  Spec.strongInvariant s -> step s s' -> Spec.strongInvariant s'.
Proof.
  intros [_ Hall] Hstep. destruct Hstep as [folderId folderName s' Hrun | index s' Hrun].
  - rewrite navigateToFolder_run in Hrun. injection Hrun as <-.
    destruct (folderId =? "")%string eqn:E.
    + apply String.eqb_eq in E. subst folderId. apply strongInvariant_root.
    + apply String.eqb_neq in E. now apply strongInvariant_push.
  - destruct (Z.eq_dec index (-1)) as [-> | Hne].
    + rewrite navigateToBreadcrumb_root in Hrun. injection Hrun as <-.
      apply strongInvariant_root.
    + rewrite navigateToBreadcrumb_run in Hrun by exact Hne.
      destruct (Z_lt_dec index 0) as [Hneg | Hpos].
      * rewrite index_out_of_range in Hrun by lia. discriminate Hrun.
      * destruct (Z_lt_dec index (Z.of_nat (List.length (breadcrumbs s)))) as [Hlt | Hge].
        -- destruct (index_in_range (breadcrumbs s) index ltac:(lia)) as [x [Hx Hs]].
           rewrite Hx, Hs in Hrun. injection Hrun as <-.
           apply strongInvariant_cut; [|exact Hall].
           unfold JS.index in Hx.
           destruct (index <? 0) eqn:E; [discriminate Hx | exact Hx].
        -- rewrite index_out_of_range in Hrun by lia. discriminate Hrun.
Qed.

Lemma reachable_strongInvariant (s : NavState) :
  reachable s -> Spec.strongInvariant s.
Proof.
  induction 1 as [|s s' _ IH Hstep].
  - apply strongInvariant_root.
  - exact (step_strongInvariant s s' IH Hstep).
Qed.

(** C6.  In every state the component can reach from its initial state,
    each navigation transition returns and gives a state that satisfies
    the invariant (the trail is empty iff the current folder is the root
    sentinel, and a non-empty trail ends with the current folder):
    [navigateToFolder] for any folder (descend, or jump to the root when
    the identifier is empty) and [navigateToBreadcrumb] for [-1] and for
    every index in range. *)
Theorem navigation_preserves_invariant (s : NavState) :
  reachable s ->
  Spec.invariant s /\
  (forall folderId folderName,
      exists s', navigateToFolder folderId folderName s = (inr tt, s') /\
                 Spec.invariant s') /\
  (forall index,
      index = -1 \/ Spec.inRange s index ->
      exists s', navigateToBreadcrumb index s = (inr tt, s') /\
                 Spec.invariant s') /\
  (forall s', step s s' -> Spec.invariant s').
Proof.
  intros Hreach. pose proof (reachable_strongInvariant s Hreach) as Hs.
  assert (Hstep : forall s', step s s' -> Spec.invariant s').
  { intros s' H. exact (proj1 (step_strongInvariant s s' Hs H)). }
  split; [exact (proj1 Hs)|]. split; [|split; [|exact Hstep]].
  - intros folderId folderName. eexists. split.
    + apply navigateToFolder_run.
    + apply Hstep. eapply step_folder, navigateToFolder_run.
  - intros index [-> | Hin].
    + exists initialState. split; [reflexivity | apply strongInvariant_root].
    + assert (Hne : index <> -1) by (unfold Spec.inRange in Hin; lia).
      destruct (index_in_range (breadcrumbs s) index Hin) as [x [Hx Hsl]].
      pose proof (navigateToBreadcrumb_run index s Hne) as Hrun.
      rewrite Hx in Hrun. eexists. split; [exact Hrun|].
      apply Hstep. eapply step_breadcrumb, Hrun.
Qed.

Lemma navigation_preserves_invariant_witness :
  reachable Examples.twoDeep /\
  Spec.invariant
    {| currentFolderId := "a"; breadcrumbs := [Examples.crumb "a"] |}.
Proof.
  assert (Hreach : reachable Examples.twoDeep).
  { apply (reachable_step
             {| currentFolderId := "a"; breadcrumbs := [Examples.crumb "a"] |}).
    - apply (reachable_step initialState); [apply reachable_init|].
      exact (step_folder initialState "a" "a" _ eq_refl).
    - exact (step_folder _ "b" "b" _ eq_refl). }
  split; [exact Hreach|].
  destruct (navigation_preserves_invariant Examples.twoDeep Hreach)
    as (_ & _ & _ & Hstep).
  apply Hstep. exact (step_breadcrumb Examples.twoDeep 0 _ eq_refl).
Defined.

End NavigationProperties.

(** ** The list view *)

Section ListViewProperties.
Import Manager.

Variable toLowerCase : string -> string.
Variable localeCompare : string -> string -> Z.

Local Notation "'project'" :=
  (Manager.filteredAndSortedFiles toLowerCase localeCompare).

Lemma compareFiles_folder_first (sortOption : SortOption) (a b : PriceListFile) :
  isFolder a = true -> isFolder b = false ->
  JS.SortCompare (compareFiles localeCompare sortOption) a b < 0.
Proof.
  intros Ha Hb. unfold JS.SortCompare, Manager.compareFiles.
  rewrite Ha, Hb. simpl. lia.
Qed.

Lemma compareFiles_folder_last (sortOption : SortOption) (a b : PriceListFile) :
  isFolder a = false -> isFolder b = true ->
  0 < JS.SortCompare (compareFiles localeCompare sortOption) a b.
Proof.
  intros Ha Hb. unfold JS.SortCompare, Manager.compareFiles.
  rewrite Ha, Hb. simpl. lia.
Qed.

Lemma filter_perm {A} (p : A -> bool) (l l' : list A) :
  Permutation l l' -> Permutation (filter p l) (filter p l').
Proof.
  induction 1 as [|x l l' _ IH|x y l|l l' l'' _ IH1 _ IH2]; simpl.
  - apply perm_nil.
  - destruct (p x); [apply perm_skip|]; exact IH.
  - destruct (p x), (p y); try apply Permutation_refl. apply perm_swap.
  - exact (perm_trans IH1 IH2).
Qed.

Lemma filter_none {A} (p : A -> bool) (l : list A) :
  forallb (fun x => negb (p x)) l = true -> filter p l = [].
Proof.
  induction l as [|x l IH]; simpl; [reflexivity|].
  intros H. apply andb_true_iff in H. destruct H as [Hx Hl].
  apply negb_true_iff in Hx. rewrite Hx. exact (IH Hl).
Qed.

(** C1.  Whatever the entries, the search term and the sort key, the
    projected list holds the entries of the input that match the search,
    each as often as the input does, arranged as a run of folders followed
    by a run of non-folders: the first run is made of the matching folder
    entries and the second of the matching non-folder entries, so every
    folder entry stands before every non-folder entry. *)
Theorem folders_before_files
  (files : list PriceListFile) (searchTerm : string) (sortOption : SortOption) :
  exists folders others,
    project files searchTerm sortOption = (folders ++ others)%list /\
    forallb isFolder folders = true /\
    forallb (fun e => negb (isFolder e)) others = true /\
    Permutation (project files searchTerm sortOption)
      (filter (matchesSearch toLowerCase searchTerm) files) /\
    Permutation folders
      (filter isFolder (filter (matchesSearch toLowerCase searchTerm) files)) /\
    Permutation others
      (filter (fun e => negb (isFolder e))
         (filter (matchesSearch toLowerCase searchTerm) files)).
Proof.
  unfold Manager.filteredAndSortedFiles, Manager.sortFiles.
  set (matching := filter (matchesSearch toLowerCase searchTerm) files).
  pose proof (JSFacts.sort_perm (compareFiles localeCompare sortOption) matching)
    as Hperm.
  destruct (JSFacts.blocks_split isFolder
              (JS.sort (compareFiles localeCompare sortOption) matching))
    as (folders & others & Heq & Hf & Ho).
  { apply JSFacts.blocks_sort.
    - apply compareFiles_folder_first.
    - apply compareFiles_folder_last. }
  exists folders, others.
  split; [exact Heq|]. split; [exact Hf|]. split; [exact Ho|].
  split; [exact Hperm|].
  rewrite Heq in Hperm. split.
  - apply Permutation_sym.
    eapply perm_trans; [apply (filter_perm isFolder), Permutation_sym, Hperm|].
    rewrite filter_app, (forallb_filter_id _ _ Hf), (filter_none _ _ Ho).
    rewrite app_nil_r. apply Permutation_refl.
  - apply Permutation_sym.
    eapply perm_trans;
      [apply (filter_perm (fun e => negb (isFolder e))), Permutation_sym, Hperm|].
    rewrite filter_app, (forallb_filter_id _ _ Ho).
    rewrite (filter_none (fun e => negb (isFolder e)) folders).
    + apply Permutation_refl.
    + apply forallb_forall. intros e He. rewrite negb_involutive.
      exact (proj1 (forallb_forall _ _) Hf e He).
Qed.

Lemma numEqb_eq (a b : JS.num) : Spec.numEqb a b = true -> a = b.
Proof.
  destruct a, b; simpl; try discriminate; try reflexivity.
  intros H. apply Z.eqb_eq in H. now subst.
Qed.

Lemma sub_diag (a : JS.num) :
  JS.sub a a = JS.NaN \/ JS.sub a a = JS.Fin 0.
Proof. destruct a; simpl; [now left | right; f_equal; lia]. Qed.

Lemma compareFiles_tied (sortOption : SortOption) (ref x y : PriceListFile) :
  (forall s, localeCompare s s = 0) ->
  Spec.tiedWith sortOption ref x = true ->
  Spec.tiedWith sortOption ref y = true ->
  JS.SortCompare (compareFiles localeCompare sortOption) x y <= 0.
Proof.
  intros Hrefl Hx Hy. unfold Spec.tiedWith in Hx, Hy.
  apply andb_true_iff in Hx, Hy. destruct Hx as [Fx Kx], Hy as [Fy Ky].
  apply Bool.eqb_prop in Fx, Fy.
  unfold JS.SortCompare, Manager.compareFiles. rewrite Fx, Fy.
  replace (isFolder ref && negb (isFolder ref)) with false
    by now destruct (isFolder ref).
  replace (negb (isFolder ref) && isFolder ref) with false
    by now destruct (isFolder ref).
  destruct sortOption.
  - apply String.eqb_eq in Kx, Ky. rewrite Kx, Ky, Hrefl. lia.
  - apply String.eqb_eq in Kx, Ky. rewrite Kx, Ky, Hrefl. lia.
  - apply numEqb_eq in Kx, Ky. rewrite Kx, Ky.
    destruct (sub_diag (modifiedTime ref)) as [-> | ->]; lia.
  - apply numEqb_eq in Kx, Ky. rewrite Kx, Ky.
    destruct (sub_diag (modifiedTime ref)) as [-> | ->]; lia.
Qed.

(** The claim of C4 as it is worded does not hold: under a date key two
    entries of the same name and folder status are ordered by their
    dates.  Here [a] precedes [b] in the input and follows it in the
    list sorted by ascending date. *)
Lemma same_name_reordered_by_date :
  let a := Examples.entry "list.pdf" false 2000 in
  let b := Examples.entry "list.pdf" false 1000 in
  filter (Spec.sameNameAndStatus "list.pdf" false)
    (Manager.filteredAndSortedFiles
       asciiToLowerCase codeUnitCompare [a; b] "" date_asc)
  = [b; a] /\
  filter (Spec.sameNameAndStatus "list.pdf" false)
    (filter (Manager.matchesSearch asciiToLowerCase "") [a; b])
  = [a; b] /\
  [b; a] <> [a; b].
Proof.
  repeat split; try reflexivity. vm_compute. discriminate.
Qed.

(** C4 (amended).  Provided the comparator is a consistent ordering, that
    is [localeCompare] is one (its sign is antisymmetric and its "not
    after" is transitive) and every entry has a valid date, the sort is
    stable on the entries that the chosen key does not tell apart: for
    every sort key and every entry [ref], the entries with the folder
    status of [ref] and, under a name key, its display name or, under a
    date key, its modification time, occur in the projected list in the
    order they have in the input. *)
Theorem sort_stable_on_ties
  (files : list PriceListFile) (searchTerm : string)
  (sortOption : SortOption) (ref : PriceListFile) :
  (forall a b, localeCompare a b < 0 <-> 0 < localeCompare b a) ->
  (forall a b c, localeCompare a b <= 0 -> localeCompare b c <= 0 ->
                 localeCompare a c <= 0) ->
  Forall Spec.hasValidDate files ->
  filter (Spec.tiedWith sortOption ref)
    (project files searchTerm sortOption)
  = filter (Spec.tiedWith sortOption ref)
      (filter (matchesSearch toLowerCase searchTerm) files).
Proof.
  intros Hanti Htrans Hvalid.
  assert (Hrefl : forall s, localeCompare s s = 0).
  { intros s0. pose proof (Hanti s0 s0) as H. lia. }
  unfold Manager.filteredAndSortedFiles, Manager.sortFiles.
  apply JSFacts.filter_sort.
  intros x y. now apply compareFiles_tied.
Qed.

(** C8.  Provided lower-casing the empty string gives the empty string,
    an entry is in the projected list iff it is an entry of the input
    whose lower-cased display name contains the lower-cased search term as
    a substring; with the empty search term the projected list has every
    entry of the input. *)
Theorem search_keeps_matching_names
  (files : list PriceListFile) (searchTerm : string) (sortOption : SortOption) :
  toLowerCase "" = "" ->
  (forall e,
      In e (project files searchTerm sortOption) <->
      In e files /\
      exists pre post,
        toLowerCase (name e) = pre ++ toLowerCase searchTerm ++ post) /\
  Permutation (project files "" sortOption) files.
Proof.
  intros Hempty. unfold Manager.filteredAndSortedFiles, Manager.sortFiles. split.
  - intros e. split.
    + intros H.
      apply (Permutation_in _ (JSFacts.sort_perm _ _)) in H.
      apply filter_In in H. destruct H as [Hin Hm].
      split; [exact Hin | now apply JSFacts.includes_spec].
    + intros [Hin Hsub].
      apply (Permutation_in _ (Permutation_sym (JSFacts.sort_perm _ _))).
      apply filter_In. split; [exact Hin | now apply JSFacts.includes_spec].
  - eapply perm_trans; [apply JSFacts.sort_perm|].
    replace (filter (matchesSearch toLowerCase "") files) with files; [apply Permutation_refl|].
    symmetry. apply forallb_filter_id. apply forallb_forall. intros e _.
    unfold Manager.matchesSearch. rewrite Hempty. apply JSFacts.includes_empty.
Qed.

End ListViewProperties.

Lemma sort_stable_on_ties_witness :
  (forall a b, Examples.lengthCompare a b < 0 <-> 0 < Examples.lengthCompare b a) /\
  (forall a b c, Examples.lengthCompare a b <= 0 -> Examples.lengthCompare b c <= 0 ->
                 Examples.lengthCompare a c <= 0) /\
  let a := Examples.entry "list.pdf" false 1000 in
  let b := Examples.entry "offer.pdf" false 1000 in
  let c := Examples.entry "2023" true 500 in
  Forall Spec.hasValidDate [a; c; b] /\
  filter (Spec.tiedWith Manager.date_desc a)
    (Manager.filteredAndSortedFiles Manager.asciiToLowerCase Examples.lengthCompare
       [a; c; b] "" Manager.date_desc)
  = [a; b].
Proof.
  assert (Hanti : forall a b,
             Examples.lengthCompare a b < 0 <-> 0 < Examples.lengthCompare b a).
  { unfold Examples.lengthCompare. intros a b. lia. }
  assert (Htrans : forall a b c,
             Examples.lengthCompare a b <= 0 -> Examples.lengthCompare b c <= 0 ->
             Examples.lengthCompare a c <= 0).
  { unfold Examples.lengthCompare. intros a b c. lia. }
  split; [exact Hanti|]. split; [exact Htrans|].
  intros a b c.
  assert (Hvalid : Forall Spec.hasValidDate [a; c; b]).
  { repeat constructor; eexists; reflexivity. }
  split; [exact Hvalid|].
  exact (sort_stable_on_ties Manager.asciiToLowerCase Examples.lengthCompare
           [a; c; b] "" Manager.date_desc a Hanti Htrans Hvalid).
Defined.

Lemma search_keeps_matching_names_witness :
  Manager.asciiToLowerCase "" = "" /\
  let files := [ Examples.entry "Invoice" true 1;
                 Examples.entry "invoice_2024.pdf" false 2;
                 Examples.entry "Summary.xlsx" false 3 ] in
  let shown :=
    Manager.filteredAndSortedFiles Manager.asciiToLowerCase Manager.codeUnitCompare
      files "INVOICE" Manager.name_asc in
  In (Examples.entry "invoice_2024.pdf" false 2) shown /\
  ~ In (Examples.entry "Summary.xlsx" false 3) shown.
Proof.
  split; [reflexivity|]. intros files shown.
  destruct (search_keeps_matching_names
              Manager.asciiToLowerCase Manager.codeUnitCompare
              files "INVOICE" Manager.name_asc eq_refl) as [Hiff _].
  split.
  - apply Hiff. split.
    + simpl. tauto.
    + exists "", "_2024.pdf". reflexivity.
  - intros Hin. apply Hiff in Hin. destruct Hin as [_ Hsub].
    apply JSFacts.includes_spec in Hsub. vm_compute in Hsub. discriminate Hsub.
Defined.

(** ** Size formatting *)

Section FormatProperties.
Import Manager.

Lemma digit_cases (d : Z) :
  0 <= d < 10 ->
  d = 0 \/ d = 1 \/ d = 2 \/ d = 3 \/ d = 4 \/
  d = 5 \/ d = 6 \/ d = 7 \/ d = 8 \/ d = 9.
Proof. lia. Qed.

Ltac each_digit H :=
  apply digit_cases in H;
  repeat (destruct H as [H | H]; [subst | ]); [.. | subst].

Lemma digitChar_noPoint (d : Z) :
  0 <= d < 10 -> Ascii.eqb (JS.digitChar d) "." = false.
Proof. intros H. each_digit H; reflexivity. Qed.

Lemma splitPoint_app (s r : string) :
  Spec.noPoint s = true -> JS.splitPoint (s ++ String "." r) = (s, Some r).
Proof.
  unfold Spec.noPoint. induction s as [|c s IH]; simpl.
  - reflexivity.
  - intros H. apply andb_true_iff in H. destruct H as [Hc Hs].
    apply negb_true_iff in Hc. rewrite Hc, (IH Hs). reflexivity.
Qed.

Lemma noPoint_app (s t : string) :
  Spec.noPoint (s ++ t) = Spec.noPoint s && Spec.noPoint t.
Proof.
  unfold Spec.noPoint. induction s as [|c s IH]; simpl.
  - reflexivity.
  - now rewrite IH, andb_assoc.
Qed.

Lemma append_assoc (s t u : string) : (s ++ t) ++ u = s ++ t ++ u.
Proof. induction s as [|c s IH]; simpl; [reflexivity | now rewrite IH]. Qed.

Lemma append_empty_r (s : string) : s ++ "" = s.
Proof. induction s as [|c s IH]; simpl; [reflexivity | now rewrite IH]. Qed.

Lemma natToString_digits (fuel : nat) :
  forall n acc, 0 <= n ->
    exists ds, JS.natToString fuel n acc = ds ++ acc /\ Spec.noPoint ds = true.
Proof.
  induction fuel as [|fuel IH]; intros n acc Hn; simpl.
  - now exists "".
  - assert (Hd : 0 <= n mod 10 < 10) by (apply Z.mod_pos_bound; lia).
    destruct (n <? 10).
    + exists (String (JS.digitChar (n mod 10)) ""). split; [reflexivity|].
      unfold Spec.noPoint. simpl. now rewrite digitChar_noPoint.
    + destruct (IH (n / 10) (String (JS.digitChar (n mod 10)) acc)
                  ltac:(apply Z.div_pos; lia)) as [ds [Hds Hno]].
      exists (ds ++ String (JS.digitChar (n mod 10)) ""). split.
      * rewrite Hds, append_assoc. reflexivity.
      * rewrite noPoint_app, Hno. unfold Spec.noPoint. simpl.
        now rewrite digitChar_noPoint.
Qed.

Lemma intToString_noPoint (n : Z) : 0 <= n -> Spec.noPoint (JS.intToString n) = true.
Proof.
  intros Hn. unfold JS.intToString.
  destruct (natToString_digits (S (Z.to_nat (Z.log2_up (n + 1)))) n "" Hn)
    as [ds [-> Hno]].
  now rewrite noPoint_app, Hno.
Qed.

Lemma dropTrailingZeros_two (d1 d0 : Z) :
  0 <= d1 < 10 -> 0 <= d0 < 10 ->
  JS.dropTrailingZeros (String (JS.digitChar d1) (String (JS.digitChar d0) "")) =
  if (d1 =? 0) && (d0 =? 0) then ""
  else if d0 =? 0 then String (JS.digitChar d1) ""
  else String (JS.digitChar d1) (String (JS.digitChar d0) "").
Proof. intros H1 H0. each_digit H1; each_digit H0; reflexivity. Qed.

(** What [parseFloat] and the conversion back to a string make of the
    output of [toFixed(2)]. *)
Lemma parseFloatToString_toFixed2 (n d : Z) :
  0 <= n -> 0 < d ->
  JS.parseFloatToString (JS.toFixed2 n d) = Spec.trimmedDecimal (JS.hundredths n d).
Proof.
  intros Hn Hd. unfold JS.parseFloatToString, JS.toFixed2, Spec.trimmedDecimal.
  set (h := JS.hundredths n d).
  assert (Hh : 0 <= h) by (apply Z.div_pos; lia).
  change ("." ++ ?x) with (String "." x).
  rewrite splitPoint_app by (apply intToString_noPoint, Z.div_pos; lia).
  assert (H1 : 0 <= h / 10 mod 10 < 10) by (apply Z.mod_pos_bound; lia).
  assert (H0 : 0 <= h mod 10 < 10) by (apply Z.mod_pos_bound; lia).
  rewrite (dropTrailingZeros_two _ _ H1 H0).
  assert (E100 : (h mod 100 =? 0) = (h / 10 mod 10 =? 0) && (h mod 10 =? 0)).
  { destruct (h mod 100 =? 0) eqn:A, (h / 10 mod 10 =? 0) eqn:B,
             (h mod 10 =? 0) eqn:C; try reflexivity;
      rewrite ?Z.eqb_eq, ?Z.eqb_neq in *; exfalso;
      Z.div_mod_to_equations; lia. }
  rewrite E100.
  destruct (h / 10 mod 10 =? 0), (h mod 10 =? 0); simpl;
    try reflexivity; now rewrite append_empty_r.
Qed.

Lemma hundredths_nearest (n d : Z) :
  0 < d ->
  2 * d * JS.hundredths n d - d <= 200 * n < 2 * d * JS.hundredths n d + d.
Proof.
  intros Hd. unfold JS.hundredths.
  pose proof (Z.div_mod (200 * n + d) (2 * d) ltac:(lia)).
  pose proof (Z.mod_pos_bound (200 * n + d) (2 * d) ltac:(lia)).
  lia.
Qed.

(** The claim of C3 as it is worded does not hold: the formatter passes
    the two-decimal string through [parseFloat], so a whole number of
    units is printed without decimals. *)
Lemma formatFileSize_1024_no_decimals :
  formatFileSize (JS.Fin 1024) = "1 KB" /\
  formatFileSize (JS.Fin 1024) <> "1.00 KB".
Proof. split; [reflexivity | vm_compute; discriminate]. Qed.

(** C3 (amended).  [formatFileSize 0] is ["0 Bytes"]; a size of at least
    one byte and less than 1024^4 bytes is printed as its value in the
    largest unit of Bytes, KB, MB, GB not exceeding it, rounded to the
    nearest hundredth and written as the shortest decimal (at most two
    decimals, no trailing zeros), a space and the unit: 1024 gives
    ["1 KB"], 1536 gives ["1.5 KB"], 1048576 gives ["1 MB"].  (The
    logarithm and the quotient are taken in exact arithmetic.) *)
Theorem formatFileSize_shortest_decimal :
  formatFileSize (JS.Fin 0) = "0 Bytes" /\
  formatFileSize (JS.Fin 1024) = "1 KB" /\
  formatFileSize (JS.Fin 1536) = "1.5 KB" /\
  formatFileSize (JS.Fin 1048576) = "1 MB" /\
  forall b, 0 < b < 1024 ^ 4 ->
    exists i unit,
      0 <= i < 4 /\
      1024 ^ i <= b < 1024 ^ (i + 1) /\
      nth_error sizes (Z.to_nat i) = Some unit /\
      let h := JS.hundredths b (1024 ^ i) in
      2 * 1024 ^ i * h - 1024 ^ i <= 200 * b < 2 * 1024 ^ i * h + 1024 ^ i /\
      formatFileSize (JS.Fin b) = Spec.trimmedDecimal h ++ " " ++ unit.
Proof.
  repeat split; try reflexivity.
  intros b [Hpos Hlt].
  destruct (JSFacts.floorLog_bounds 1024 b ltac:(lia) Hpos) as [Hi0 [Hlo Hhi]].
  set (i := JS.floorLog 1024 b) in *.
  assert (Hi4 : i < 4).
  { destruct (Z_lt_dec i 4) as [H | H]; [exact H|].
    assert (1024 ^ 4 <= 1024 ^ i) by (apply Z.pow_le_mono_r; lia). lia. }
  assert (Hd : 0 < 1024 ^ i) by (apply Z.pow_pos_nonneg; lia).
  assert (Hunit : exists unit,
             nth_error sizes (Z.to_nat i) = Some unit /\
             nth (Z.to_nat i) sizes "undefined" = unit).
  { assert (Hc : i = 0 \/ i = 1 \/ i = 2 \/ i = 3) by lia.
    destruct Hc as [-> | [-> | [-> | ->]]]; eexists; split; reflexivity. }
  destruct Hunit as [unit [Hnth Hu]].
  exists i, unit. repeat split; try assumption; try lia.
  - apply hundredths_nearest; exact Hd.
  - apply hundredths_nearest; exact Hd.
  - unfold formatFileSize. destruct b as [|p|p]; try lia.
    replace (0 <? Z.pos p) with true by reflexivity.
    cbv zeta. fold i. rewrite Hu.
    rewrite parseFloatToString_toFixed2 by lia. reflexivity.
Qed.

Lemma formatFileSize_shortest_decimal_witness :
  0 < 123456789 < 1024 ^ 4 /\
  exists i unit,
    0 <= i < 4 /\
    1024 ^ i <= 123456789 < 1024 ^ (i + 1) /\
    nth_error sizes (Z.to_nat i) = Some unit /\
    let h := JS.hundredths 123456789 (1024 ^ i) in
    2 * 1024 ^ i * h - 1024 ^ i <= 200 * 123456789 < 2 * 1024 ^ i * h + 1024 ^ i /\
    formatFileSize (JS.Fin 123456789) = Spec.trimmedDecimal h ++ " " ++ unit.
Proof.
  split; [split; reflexivity|].
  apply formatFileSize_shortest_decimal. split; reflexivity.
Defined.

End FormatProperties.

(** ** Normalisation of the fetched records *)

Section NormaliserProperties.
Import Manager.

Variable newDate : string -> JS.num.

Lemma truthy_false (o : option string) :
  o = None \/ o = Some "" -> JS.truthy o = false.
Proof. intros [-> | ->]; reflexivity. Qed.

Lemma truthy_true (s : string) : s <> "" -> JS.truthy (Some s) = true.
Proof. destruct s; [contradiction | reflexivity]. Qed.

(** The claim of C7 as it is worded does not hold: the size field is
    looked at before the kind, so a folder record that carries a size is
    given the formatted size and not the placeholder; and a size without
    a leading integer is given neither placeholder. *)
Lemma sized_folder_not_placeholder :
  ~ (forall file,
        isFolder (processFile Examples.noDate file) = true ->
        size (processFile Examples.noDate file) = "-") /\
  size (processFile Examples.noDate Examples.sizedFolder) = "1 KB" /\
  size (processFile Examples.noDate Examples.badSize) = "NaN undefined".
Proof.
  split; [|split; reflexivity].
  intros H. specialize (H Examples.sizedFolder eq_refl).
  vm_compute in H. discriminate H.
Qed.

(** C7 (amended).  Normalisation has no failing path: [processFile] is
    defined on every record and [loadFiles] maps it over every record the
    listing returned.  An entry is a folder iff the MIME type of the
    record is the folder marker.  A record whose size is absent or empty
    is given ["-"] when it is a folder and ["Bilinmiyor"] otherwise; a
    record with a non-empty size, folder or not, is given what
    [formatFileSize] prints for [parseInt] of that size. *)
Theorem processFile_size (file : Service.DriveFile) :
  (isFolder (processFile newDate file) = true <->
   Service.mimeType file = "application/vnd.google-apps.folder") /\
  (Service.size file = None \/ Service.size file = Some "" ->
   size (processFile newDate file) =
   if isFolder (processFile newDate file) then "-" else "Bilinmiyor") /\
  (forall s, Service.size file = Some s -> s <> "" ->
             size (processFile newDate file) = formatFileSize (JS.parseInt s)) /\
  (forall fetch driveService folderId driveFiles,
      Service.getFilesFromFolder fetch driveService = inr driveFiles ->
      loadFiles newDate fetch driveService folderId
      = inr (map (processFile newDate) driveFiles)).
Proof.
  split; [|split; [|split]].
  - simpl. apply String.eqb_eq.
  - intros H. simpl. now rewrite (truthy_false _ H).
  - intros s Hs Hne. simpl. rewrite Hs. now rewrite (truthy_true s Hne).
  - intros fetch driveService folderId driveFiles H.
    unfold loadFiles. now rewrite H.
Qed.

(** C10.  Every record, folder or not, is given a download URL: the
    forced-download address of the provider followed by the identifier of
    the record, which is never the empty string. *)
Theorem processFile_downloadUrl (file : Service.DriveFile) :
  downloadUrl (processFile newDate file)
  = "https://drive.google.com/uc?export=download&id=" ++ Service.id file /\
  id (processFile newDate file) = Service.id file /\
  downloadUrl (processFile newDate file) <> "".
Proof.
  split; [reflexivity | split; [reflexivity | discriminate]].
Qed.

End NormaliserProperties.

Lemma processFile_size_witness :
  (Service.size Examples.noSize = None \/ Service.size Examples.noSize = Some "") /\
  Manager.size (Manager.processFile Examples.noDate Examples.noSize) = "Bilinmiyor" /\
  Service.size Examples.rootReport = Some "1536" /\
  "1536" <> "" /\
  Manager.size (Manager.processFile Examples.noDate Examples.rootReport) = "1.5 KB" /\
  Manager.loadFiles Examples.noDate Examples.driveFetch Examples.svc None
  = inr (map (Manager.processFile Examples.noDate)
           [Examples.subFolder; Examples.rootReport]).
Proof.
  assert (Hne : "1536" <> "") by discriminate.
  destruct (processFile_size Examples.noDate Examples.noSize) as (_ & Habsent & _ & _).
  destruct (processFile_size Examples.noDate Examples.rootReport) as (_ & _ & Hsized & Hload).
  split; [left; reflexivity|].
  split; [exact (Habsent (or_introl eq_refl))|].
  split; [reflexivity|].
  split; [exact Hne|].
  split; [exact (Hsized "1536" eq_refl Hne)|].
  exact (Hload Examples.driveFetch Examples.svc None _ eq_refl).
Defined.

(** * Further properties of the code *)

(** ** The listing client and the loading of entries *)

Section ListingOutcomes.
Import Service.

Variable newDate : string -> JS.num.
Variable fetch : Request -> FetchResult.
Variable this : GoogleDriveService.

Lemma listing_success_inv (result : list DriveFile) :
  getFilesFromFolder fetch this = inr result ->
  exists status files,
    fetch (listingRequest this) = Response true status (Some files) /\
    result = filter isSupported files /\
    (List.length result <= List.length files)%nat /\
    Forall (fun file => In (mimeType file) Spec.allowedMimeTypes) result.
Proof.
  unfold getFilesFromFolder.
  destruct (fetch (listingRequest this)) as [|ok status [files|]];
    [discriminate | destruct ok | destruct ok]; try discriminate.
  intros H. injection H as <-.
  exists status, files. split; [reflexivity|]. split; [reflexivity|]. split.
  - apply filter_length_le.
  - apply Forall_forall. intros file Hin. apply filter_In in Hin.
    destruct Hin as [_ Hs]. rewrite isSupported_isAllowed in Hs.
    unfold Spec.isAllowed in Hs. apply existsb_exists in Hs.
    destruct Hs as [m [Hm Heq]]. apply String.eqb_eq in Heq. now rewrite Heq.
Qed.

(** X1.  The listing gives records only out of an [ok] response whose body
    carries a [files] array: what it returns is then the allowed part of
    that array, never longer than it, and every returned record has one of
    the four allowed MIME types. *)
Theorem getFilesFromFolder_success_only_from_ok (result : list DriveFile) :
  getFilesFromFolder fetch this = inr result ->
  exists status files,
    fetch (listingRequest this) = Response true status (Some files) /\
    result = filter isSupported files /\
    (List.length result <= List.length files)%nat /\
    Forall (fun file => In (mimeType file) Spec.allowedMimeTypes) result.
Proof. exact (listing_success_inv result). Qed.


(** X3.  On the records the listing returns, the kind given by the
    normaliser is exact: an entry is a folder for the folder marker, a PDF
    for the PDF type, and the catch-all kind [excel] only for one of the two
    spreadsheet types. *)
Theorem listed_kinds_are_exact (result : list DriveFile) :
  getFilesFromFolder fetch this = inr result ->
  Forall
    (fun file =>
       match Manager.type (Manager.processFile newDate file) with
       | Manager.folder => mimeType file = "application/vnd.google-apps.folder"
       | Manager.pdf => mimeType file = "application/pdf"
       | Manager.excel =>
           mimeType file =
             "application/vnd.openxmlformats-officedocument.spreadsheetml.sheet" \/
           mimeType file = "application/vnd.ms-excel"
       end)
    result.
Proof.
  intros H.
  destruct (listing_success_inv result H)
    as (status & files & _ & _ & _ & Hall).
  apply Forall_forall. intros file Hin.
  rewrite Forall_forall in Hall. specialize (Hall file Hin).
  simpl.
  destruct (mimeType file =? "application/vnd.google-apps.folder")%string eqn:Ef.
  - simpl. now apply String.eqb_eq.
  - simpl. destruct (mimeType file =? "application/pdf")%string eqn:Ep.
    + now apply String.eqb_eq.
    + apply String.eqb_neq in Ef, Ep. simpl in Hall.
      destruct Hall as [E | [E | [E | [E | []]]]]; symmetry in E; tauto.
Qed.

(** X4.  The address an entry is viewed at follows its kind, for every
    record: the folder browser for a folder, the preview for a PDF, the
    spreadsheet editor for anything else; each is built from the identifier
    of the entry alone. *)
Theorem viewUrl_follows_kind (file : DriveFile) :
  let e := Manager.processFile newDate file in
  Manager.viewUrl e =
  match Manager.type e with
  | Manager.folder => "https://drive.google.com/drive/folders/" ++ Manager.id e
  | Manager.pdf => "https://drive.google.com/file/d/" ++ Manager.id e ++ "/preview"
  | Manager.excel =>
      "https://docs.google.com/spreadsheets/d/" ++ Manager.id e ++ "/edit?usp=sharing"
  end.
Proof.
  simpl. unfold getFileViewUrl.
  destruct (mimeType file =? "application/vnd.google-apps.folder")%string;
    [reflexivity|].
  simpl. now destruct (mimeType file =? "application/pdf")%string.
Qed.

End ListingOutcomes.

Lemma getFilesFromFolder_success_only_from_ok_witness :
  Service.getFilesFromFolder Examples.driveFetch Examples.svc
  = inr [Examples.subFolder; Examples.rootReport] /\
  exists status files,
    Examples.driveFetch (Service.listingRequest Examples.svc)
    = Service.Response true status (Some files) /\
    [Examples.subFolder; Examples.rootReport] = filter Service.isSupported files /\
    (List.length [Examples.subFolder; Examples.rootReport] <= List.length files)%nat /\
    Forall (fun file => In (Service.mimeType file) Spec.allowedMimeTypes)
      [Examples.subFolder; Examples.rootReport].
Proof.
  split; [reflexivity|].
  exact (getFilesFromFolder_success_only_from_ok
           Examples.driveFetch Examples.svc _ eq_refl).
Defined.


Lemma listed_kinds_are_exact_witness :
  Service.getFilesFromFolder Examples.driveFetch Examples.svc
  = inr [Examples.subFolder; Examples.rootReport] /\
  Forall
    (fun file =>
       match Manager.type (Manager.processFile Examples.noDate file) with
       | Manager.folder =>
           Service.mimeType file = "application/vnd.google-apps.folder"
       | Manager.pdf => Service.mimeType file = "application/pdf"
       | Manager.excel =>
           Service.mimeType file =
             "application/vnd.openxmlformats-officedocument.spreadsheetml.sheet" \/
           Service.mimeType file = "application/vnd.ms-excel"
       end)
    [Examples.subFolder; Examples.rootReport].
Proof.
  split; [reflexivity|].
  exact (listed_kinds_are_exact Examples.noDate Examples.driveFetch Examples.svc
           _ eq_refl).
Defined.

(** ** Moving through folders *)

Section NavigationRoundTrips.
Import Manager.

Lemma index_middle {A} (front rest : list A) (x : A) :
  JS.index (front ++ x :: rest)%list (Z.of_nat (List.length front)) = Some x.
Proof.
  unfold JS.index.
  destruct (Z.of_nat (List.length front) <? 0) eqn:E; [apply Z.ltb_lt in E; lia|].
  rewrite Nat2Z.id, nth_error_app2 by lia.
  now rewrite Nat.sub_diag.
Qed.

Lemma slice0_middle {A} (front rest : list A) (x : A) :
  JS.slice0 (front ++ x :: rest)%list (Z.of_nat (List.length front) + 1)
  = (front ++ [x])%list.
Proof.
  unfold JS.slice0.
  destruct (Z.of_nat (List.length front) + 1 <? 0) eqn:E; [apply Z.ltb_lt in E; lia|].
  replace (Z.to_nat (Z.of_nat (List.length front) + 1))
    with (List.length front + 1)%nat by lia.
  rewrite firstn_app_2. reflexivity.
Qed.

Lemma jump_to_middle (front rest : list BreadcrumbItem) (x : BreadcrumbItem)
  (current : string) :
  navigateToBreadcrumb (Z.of_nat (List.length front))
    {| currentFolderId := current; breadcrumbs := (front ++ x :: rest)%list |}
  = (inr tt, {| currentFolderId := crumbId x; breadcrumbs := (front ++ [x])%list |}).
Proof.
  rewrite navigateToBreadcrumb_run by lia. simpl breadcrumbs.
  now rewrite index_middle, slice0_middle.
Qed.

(** X5.  Going back after going down.  From any state the component can
    reach, entering a folder (non-empty identifier) and then clicking the
    breadcrumb that was last before, or the root link when the trail was
    empty, restores the state exactly. *)
Theorem descend_then_back_restores (s : NavState) (folderId folderName : string) :
  reachable s -> folderId <> "" ->
  bind (navigateToFolder folderId folderName)
    (fun _ => navigateToBreadcrumb (Z.of_nat (List.length (breadcrumbs s)) - 1)) s
  = (inr tt, s).
Proof.
  intros Hreach Hne.
  destruct (reachable_strongInvariant s Hreach) as [[Hroot Hlast] _].
  unfold bind. rewrite navigateToFolder_run.
  apply String.eqb_neq in Hne. rewrite Hne.
  destruct s as [current crumbs]. simpl in *.
  destruct crumbs as [|c0 cs].
  - simpl. rewrite (proj1 Hroot eq_refl). reflexivity.
  - destruct (exists_last (l := c0 :: cs) ltac:(discriminate)) as [front [item Heq]].
    rewrite Heq in *. rewrite length_app. simpl List.length.
    replace (Z.of_nat (List.length front + 1) - 1)
      with (Z.of_nat (List.length front)) by lia.
    rewrite <- app_assoc. simpl app.
    rewrite jump_to_middle. now rewrite (Hlast front item eq_refl).
Qed.

(** X6.  Clicking the last breadcrumb, the folder that is open, changes
    nothing in a state the component can reach. *)
Theorem jump_to_current_is_identity (s : NavState) :
  reachable s -> breadcrumbs s <> [] ->
  navigateToBreadcrumb (Z.of_nat (List.length (breadcrumbs s)) - 1) s = (inr tt, s).
Proof.
  intros Hreach Hne.
  destruct (reachable_strongInvariant s Hreach) as [[_ Hlast] _].
  destruct s as [current crumbs]. simpl in *.
  destruct (exists_last Hne) as [front [item ->]].
  rewrite length_app. simpl List.length.
  replace (Z.of_nat (List.length front + 1) - 1)
    with (Z.of_nat (List.length front)) by lia.
  rewrite jump_to_middle. now rewrite (Hlast front item eq_refl).
Qed.

(** X7.  Two jumps make one: jumping to breadcrumb [i] and then to a
    breadcrumb [j] at or before it gives the state of jumping to [j] at
    once, in any state where [i] is in range. *)
Theorem jump_then_jump_back (s : NavState) (i j : Z) :
  0 <= j <= i -> Spec.inRange s i ->
  bind (navigateToBreadcrumb i) (fun _ => navigateToBreadcrumb j) s
  = navigateToBreadcrumb j s.
Proof.
  intros Hj Hi. unfold Spec.inRange in Hi.
  assert (Hrun : forall k crumbs current,
             0 <= k < Z.of_nat (List.length crumbs) ->
             exists x,
               nth_error crumbs (Z.to_nat k) = Some x /\
               navigateToBreadcrumb k
                 {| currentFolderId := current; breadcrumbs := crumbs |}
               = (inr tt, {| currentFolderId := crumbId x;
                             breadcrumbs := firstn (S (Z.to_nat k)) crumbs |})).
  { intros k crumbs current Hk.
    rewrite navigateToBreadcrumb_run by lia. simpl breadcrumbs.
    unfold JS.index, JS.slice0.
    destruct (k <? 0) eqn:E; [apply Z.ltb_lt in E; lia|].
    destruct (k + 1 <? 0) eqn:E1; [apply Z.ltb_lt in E1; lia|].
    replace (Z.to_nat (k + 1)) with (S (Z.to_nat k)) by lia.
    destruct (nth_error crumbs (Z.to_nat k)) as [x|] eqn:Hx.
    - exists x. split; reflexivity.
    - apply nth_error_None in Hx. lia. }
  destruct s as [current crumbs]. simpl in Hi.
  unfold bind.
  destruct (Hrun i crumbs current Hi) as [x [_ ->]].
  destruct (Hrun j crumbs current ltac:(lia)) as [y [Hy ->]].
  destruct (Hrun j (firstn (S (Z.to_nat i)) crumbs) (crumbId x)) as [y' [Hy' ->]].
  { rewrite length_firstn. lia. }
  rewrite nth_error_firstn in Hy'.
  destruct (Z.to_nat j <? S (Z.to_nat i))%nat eqn:E;
    [|apply Nat.ltb_ge in E; lia].
  rewrite Hy in Hy'. injection Hy' as <-.
  rewrite firstn_firstn.
  replace (Nat.min (S (Z.to_nat j)) (S (Z.to_nat i))) with (S (Z.to_nat j)) by lia.
  reflexivity.
Qed.

(** X8.  A navigation step either appends one entry to the trail or cuts
    the trail to one of its prefixes; it never reorders or rewrites what it
    keeps. *)
Theorem step_appends_or_truncates (s s' : NavState) :
  step s s' ->
  (exists item, breadcrumbs s' = (breadcrumbs s ++ [item])%list) \/
  (exists dropped, breadcrumbs s = (breadcrumbs s' ++ dropped)%list).
Proof.
  intros [folderId folderName s1 Hrun | index s1 Hrun].
  - rewrite navigateToFolder_run in Hrun. injection Hrun as <-.
    destruct (folderId =? "")%string; simpl.
    + right. now exists (breadcrumbs s).
    + left. eexists. reflexivity.
  - right. destruct (Z.eq_dec index (-1)) as [-> | Hne].
    + rewrite navigateToBreadcrumb_root in Hrun. injection Hrun as <-.
      now exists (breadcrumbs s).
    + rewrite navigateToBreadcrumb_run in Hrun by exact Hne.
      destruct (JS.index (breadcrumbs s) index) as [x|] eqn:Hx; [|discriminate Hrun].
      injection Hrun as <-. simpl. unfold JS.slice0.
      unfold JS.index in Hx. destruct (index <? 0) eqn:E; [discriminate Hx|].
      apply Z.ltb_ge in E.
      destruct (index + 1 <? 0) eqn:E1; [apply Z.ltb_lt in E1; lia|].
      exists (skipn (Z.to_nat (index + 1)) (breadcrumbs s)).
      symmetry. apply firstn_skipn.
Qed.

(** X9.  A click on a row never raises and keeps the state among those the
    component can reach: a click on a document leaves the navigation as it
    is and opens the view address of the document; a click on a folder
    opens nothing and makes that folder the current one. *)
Theorem handleFileClick_keeps_reachable (s : NavState) (file : PriceListFile) :
  reachable s ->
  exists opened s',
    handleFileClick file s = (inr opened, s') /\
    reachable s' /\
    (isFolder file = false -> s' = s /\ opened = Some (viewUrl file)) /\
    (isFolder file = true -> opened = None /\ currentFolderId s' = id file).
Proof.
  intros Hreach. unfold handleFileClick.
  destruct (isFolder file) eqn:E.
  - unfold bind. rewrite navigateToFolder_run. eexists. eexists.
    split; [reflexivity|]. split; [|split; [discriminate|]].
    + apply (reachable_step s); [exact Hreach|].
      eapply step_folder, navigateToFolder_run.
    + intros _. split; [reflexivity|].
      now destruct (id file =? "")%string.
  - exists (Some (viewUrl file)), s. split; [reflexivity|].
    split; [exact Hreach|]. split; [tauto | discriminate].
Qed.

End NavigationRoundTrips.

Ltac reach_twoDeep :=
  apply (Manager.reachable_step
           {| Manager.currentFolderId := "a";
              Manager.breadcrumbs := [Examples.crumb "a"] |});
  [ apply (Manager.reachable_step Manager.initialState);
    [ apply Manager.reachable_init
    | exact (Manager.step_folder Manager.initialState "a" "a" _ eq_refl) ]
  | exact (Manager.step_folder _ "b" "b" _ eq_refl) ].

Lemma descend_then_back_restores_witness :
  Manager.reachable Examples.twoDeep /\ "c" <> "" /\
  Manager.bind (Manager.navigateToFolder "c" "third")
    (fun _ => Manager.navigateToBreadcrumb 1) Examples.twoDeep
  = (inr tt, Examples.twoDeep).
Proof.
  assert (Hreach : Manager.reachable Examples.twoDeep) by reach_twoDeep.
  assert (Hne : "c" <> "") by discriminate.
  split; [exact Hreach|]. split; [exact Hne|].
  exact (descend_then_back_restores Examples.twoDeep "c" "third" Hreach Hne).
Defined.

Lemma jump_to_current_is_identity_witness :
  Manager.reachable Examples.twoDeep /\
  Manager.navigateToBreadcrumb 1 Examples.twoDeep = (inr tt, Examples.twoDeep).
Proof.
  assert (Hreach : Manager.reachable Examples.twoDeep) by reach_twoDeep.
  split; [exact Hreach|].
  apply (jump_to_current_is_identity Examples.twoDeep Hreach). discriminate.
Defined.

Lemma jump_then_jump_back_witness :
  Manager.bind (Manager.navigateToBreadcrumb 1)
    (fun _ => Manager.navigateToBreadcrumb 0) Examples.twoDeep
  = Manager.navigateToBreadcrumb 0 Examples.twoDeep.
Proof.
  apply jump_then_jump_back.
  - lia.
  - unfold Spec.inRange. simpl. lia.
Defined.

Lemma step_appends_or_truncates_witness :
  (exists item,
      [Examples.crumb "a"] = (Manager.breadcrumbs Examples.twoDeep ++ [item])%list) \/
  (exists dropped,
      Manager.breadcrumbs Examples.twoDeep = ([Examples.crumb "a"] ++ dropped)%list).
Proof.
  exact (step_appends_or_truncates Examples.twoDeep
           {| Manager.currentFolderId := "a";
              Manager.breadcrumbs := [Examples.crumb "a"] |}
           (Manager.step_breadcrumb Examples.twoDeep 0 _ eq_refl)).
Defined.

Lemma handleFileClick_keeps_reachable_witness :
  exists opened s',
    Manager.handleFileClick (Examples.entry "2023" true 500) Examples.twoDeep
    = (inr opened, s') /\
    Manager.reachable s' /\
    (Manager.isFolder (Examples.entry "2023" true 500) = false ->
     s' = Examples.twoDeep /\
     opened = Some (Manager.viewUrl (Examples.entry "2023" true 500))) /\
    (Manager.isFolder (Examples.entry "2023" true 500) = true ->
     opened = None /\
     Manager.currentFolderId s' = Manager.id (Examples.entry "2023" true 500)).
Proof.
  apply handleFileClick_keeps_reachable. reach_twoDeep.
Defined.

(** ** Order and content of the projected list *)

Section SortedOutput.
Context {A : Type}.
Variable comparefn : A -> A -> JS.num.
Variable P : A -> Prop.

Hypothesis le_total :
  forall x y, P x -> P y ->
    0 < JS.SortCompare comparefn x y -> JS.SortCompare comparefn y x <= 0.
Hypothesis le_trans :
  forall x y z, P x -> P y -> P z ->
    JS.SortCompare comparefn x y <= 0 -> JS.SortCompare comparefn y z <= 0 ->
    JS.SortCompare comparefn x z <= 0.

Lemma insert_sorted (x : A) (l : list A) :
  P x -> Forall P l ->
  StronglySorted (fun a b => JS.SortCompare comparefn a b <= 0) l ->
  StronglySorted (fun a b => JS.SortCompare comparefn a b <= 0)
    (JS.insert comparefn x l).
Proof.
  intros Px Pl Hs. induction Hs as [|y l Hs IH Hy]; simpl.
  - constructor; constructor.
  - apply Forall_cons_iff in Pl. destruct Pl as [Py Pl].
    destruct (0 <? JS.SortCompare comparefn x y) eqn:E.
    + apply Z.ltb_lt in E. constructor; [exact (IH Pl)|].
      apply (Permutation_Forall (Permutation_sym (JSFacts.insert_perm comparefn x l))).
      constructor; [exact (le_total x y Px Py E) | exact Hy].
    + apply Z.ltb_ge in E. constructor; [now constructor|].
      constructor; [exact E|].
      rewrite Forall_forall in *. intros z Hz.
      exact (le_trans x y z Px Py (Pl z Hz) E (Hy z Hz)).
Qed.

(** When the comparator is a total preorder on the elements of the array,
    the sorted array is in order. *)
Lemma sort_sorted (l : list A) :
  Forall P l ->
  StronglySorted (fun a b => JS.SortCompare comparefn a b <= 0)
    (JS.sort comparefn l).
Proof.
  induction l as [|x l IH]; intros Pl; simpl.
  - constructor.
  - apply Forall_cons_iff in Pl. destruct Pl as [Px Pl].
    apply insert_sorted; [exact Px | | exact (IH Pl)].
    exact (Permutation_Forall (Permutation_sym (JSFacts.sort_perm comparefn l)) Pl).
Qed.
End SortedOutput.

Section ListViewOrder.
Import Manager.

Variable toLowerCase : string -> string.
Variable localeCompare : string -> string -> Z.

(** X10.  Sorting neither drops nor repeats an entry: the projected list
    is a rearrangement of the entries that match the search, so it is
    never longer than the input, and [sortFiles] keeps the number of
    entries. *)
Theorem projection_is_rearrangement
  (files : list PriceListFile) (searchTerm : string) (sortOption : SortOption) :
  Permutation
    (filteredAndSortedFiles toLowerCase localeCompare files searchTerm sortOption)
    (filter (matchesSearch toLowerCase searchTerm) files) /\
  (List.length
     (filteredAndSortedFiles toLowerCase localeCompare files searchTerm sortOption)
   <= List.length files)%nat /\
  List.length (sortFiles localeCompare files sortOption) = List.length files.
Proof.
  unfold filteredAndSortedFiles, sortFiles. split; [apply JSFacts.sort_perm|]. split.
  - rewrite (Permutation_length (JSFacts.sort_perm _ _)). apply filter_length_le.
  - apply Permutation_length, JSFacts.sort_perm.
Qed.

(** X11.  When [localeCompare] is a total preorder and every entry has a
    valid date, the projected list is in the order of the comparator for
    each of the four sort keys: no entry is followed, at any distance, by
    an entry that the comparator places strictly before it. *)
Theorem projection_is_ordered
  (files : list PriceListFile) (searchTerm : string) (sortOption : SortOption) :
  (forall a b, 0 < localeCompare a b -> localeCompare b a <= 0) ->
  (forall a b c, localeCompare a b <= 0 -> localeCompare b c <= 0 ->
                 localeCompare a c <= 0) ->
  Forall Spec.hasValidDate files ->
  StronglySorted
    (fun a b => JS.SortCompare (compareFiles localeCompare sortOption) a b <= 0)
    (filteredAndSortedFiles toLowerCase localeCompare files searchTerm sortOption).
Proof.
  intros Htot Htrans Hvalid.
  unfold filteredAndSortedFiles, sortFiles.
  apply (sort_sorted _ Spec.hasValidDate).
  - intros x y [tx Hx] [ty Hy]. unfold JS.SortCompare, compareFiles.
    rewrite Hx, Hy.
    destruct (isFolder x), (isFolder y), sortOption; simpl; try lia;
      intros H; try (apply Htot; exact H).
  - intros x y z [tx Hx] [ty Hy] [tz Hz]. unfold JS.SortCompare, compareFiles.
    rewrite Hx, Hy, Hz.
    destruct (isFolder x), (isFolder y), (isFolder z), sortOption; simpl;
      try lia; intros H1 H2; eauto.
  - rewrite Forall_forall in *. intros e He. apply filter_In in He.
    apply Hvalid. tauto.
Qed.

End ListViewOrder.

Lemma projection_is_ordered_witness :
  let files := [ Examples.entry "offer.pdf" false 3000;
                 Examples.entry "2023" true 500;
                 Examples.entry "list.pdf" false 1000 ] in
  StronglySorted
    (fun a b =>
       JS.SortCompare (Manager.compareFiles Examples.lengthCompare Manager.date_asc) a b
       <= 0)
    (Manager.filteredAndSortedFiles Manager.asciiToLowerCase Examples.lengthCompare
       files "" Manager.date_asc) /\
  Manager.filteredAndSortedFiles Manager.asciiToLowerCase Examples.lengthCompare
    files "" Manager.date_asc
  = [ Examples.entry "2023" true 500;
      Examples.entry "list.pdf" false 1000;
      Examples.entry "offer.pdf" false 3000 ].
Proof.
  intros files. split; [|reflexivity].
  apply projection_is_ordered.
  - unfold Examples.lengthCompare. intros a b. lia.
  - unfold Examples.lengthCompare. intros a b c. lia.
  - repeat constructor; eexists; reflexivity.
Defined.

(** ** Sizes, dates and counters of the loaded entries *)

Section LoadedEntries.
Import Manager.

(** X12.  Outside the unit table.  A size of 1024^4 bytes or more is
    never given a unit of the table: what is printed ends with the text
    ["undefined"] (the table ends at GB).  A negative size and a size that
    is not a number are printed as ["NaN undefined"]. *)
Theorem formatFileSize_outside_units :
  (forall b, 1024 ^ 4 <= b ->
     exists value, formatFileSize (JS.Fin b) = value ++ " undefined") /\
  (forall b, b < 0 -> formatFileSize (JS.Fin b) = "NaN undefined") /\
  formatFileSize JS.NaN = "NaN undefined".
Proof.
  split; [|split; [|reflexivity]].
  - intros b Hb.
    assert (Hpos : 0 < b) by (assert (0 < 1024 ^ 4) by reflexivity; lia).
    destruct (JSFacts.floorLog_bounds 1024 b ltac:(lia) Hpos) as [Hi0 [Hlo Hhi]].
    set (i := JS.floorLog 1024 b) in *.
    assert (Hi4 : 4 <= i).
    { destruct (Z_le_dec 4 i) as [H | H]; [exact H|].
      assert (1024 ^ (i + 1) <= 1024 ^ 4) by (apply Z.pow_le_mono_r; lia). lia. }
    exists (JS.parseFloatToString (JS.toFixed2 b (1024 ^ i))).
    unfold formatFileSize. destruct b as [|p|p]; try lia.
    replace (0 <? Z.pos p) with true by reflexivity.
    cbv zeta. fold i.
    rewrite nth_overflow by (simpl; lia). reflexivity.
  - intros b Hb. destruct b as [|p|p]; try lia. reflexivity.
Qed.

Lemma latest_fold (l : list PriceListFile) :
  forall t0,
    Forall Spec.hasValidDate l ->
    exists t,
      fold_left
        (fun latest file =>
           if JS.gt (modifiedTime file) latest then modifiedTime file else latest)
        l (JS.Fin t0) = JS.Fin t /\
      t0 <= t /\
      (t = t0 \/ exists e, In e l /\ modifiedTime e = JS.Fin t) /\
      (forall e t', In e l -> modifiedTime e = JS.Fin t' -> t' <= t).
Proof.
  induction l as [|x l IH]; intros t0 Hall; simpl.
  - exists t0. split; [reflexivity|]. split; [lia|]. split; [now left|].
    intros e t' [].
  - apply Forall_cons_iff in Hall. destruct Hall as [[tx Hx] Hall].
    rewrite Hx. simpl JS.gt.
    destruct (t0 <? tx) eqn:E.
    + apply Z.ltb_lt in E.
      destruct (IH tx Hall) as (t & Hfold & Hle & Hmem & Hmax).
      exists t. split; [exact Hfold|]. split; [lia|]. split.
      * right. destruct Hmem as [-> | [e [He Ht]]].
        -- exists x. split; [now left | exact Hx].
        -- exists e. split; [now right | exact Ht].
      * intros e t' [<- | He] Ht.
        -- rewrite Hx in Ht. injection Ht as <-. exact Hle.
        -- exact (Hmax e t' He Ht).
    + apply Z.ltb_ge in E.
      destruct (IH t0 Hall) as (t & Hfold & Hle & Hmem & Hmax).
      exists t. split; [exact Hfold|]. split; [lia|]. split.
      * destruct Hmem as [-> | [e [He Ht]]]; [now left|].
        right. exists e. split; [now right | exact Ht].
      * intros e t' [<- | He] Ht.
        -- rewrite Hx in Ht. injection Ht as <-. lia.
        -- exact (Hmax e t' He Ht).
Qed.

(** X13.  When entries were loaded and all their dates are valid, the date
    shown in the header is the latest modification among them: it is the
    date of one of the entries and no entry is more recent. *)
Theorem latestModification_is_maximum
  (now : JS.num) (processedFiles : list PriceListFile) :
  processedFiles <> [] ->
  Forall Spec.hasValidDate processedFiles ->
  exists t,
    latestModification now processedFiles = JS.Fin t /\
    (exists e, In e processedFiles /\ modifiedTime e = JS.Fin t) /\
    (forall e t', In e processedFiles -> modifiedTime e = JS.Fin t' -> t' <= t).
Proof.
  intros Hne Hall. destruct processedFiles as [|first rest]; [contradiction|].
  unfold latestModification.
  pose proof Hall as Hall'.
  apply Forall_cons_iff in Hall'. destruct Hall' as [[t0 H0] _].
  rewrite H0.
  destruct (latest_fold (first :: rest) t0 Hall) as (t & Hfold & Hle & Hmem & Hmax).
  exists t. split; [exact Hfold|]. split; [|exact Hmax].
  destruct Hmem as [-> | Hmem]; [|exact Hmem].
  exists first. split; [now left | exact H0].
Qed.

(** X14.  When the date of the first entry is invalid, the header date is
    invalid whatever the dates of the other entries: no comparison with
    [NaN] succeeds, so the starting value is never replaced. *)
Theorem latestModification_invalid_first
  (now : JS.num) (first : PriceListFile) (rest : list PriceListFile) :
  modifiedTime first = JS.NaN ->
  latestModification now (first :: rest) = JS.NaN.
Proof.
  intros H. unfold latestModification. rewrite H.
  generalize (first :: rest). intros l.
  induction l as [|x l IH]; simpl; [reflexivity|].
  replace (JS.gt (modifiedTime x) JS.NaN) with false
    by now destruct (modifiedTime x).
  exact IH.
Qed.

Variable newDate : string -> JS.num.

Lemma processFile_flags (r : Service.DriveFile) :
  let e := processFile newDate r in
  (isFolder e = true /\ isType folder e = true /\
   isType pdf e = false /\ isType excel e = false) \/
  (isFolder e = false /\ isType folder e = false /\
   isType pdf e = true /\ isType excel e = false) \/
  (isFolder e = false /\ isType folder e = false /\
   isType pdf e = false /\ isType excel e = true).
Proof.
  unfold isType. simpl.
  destruct (Service.mimeType r =? "application/vnd.google-apps.folder")%string;
    simpl; [tauto|].
  destruct (Service.mimeType r =? "application/pdf")%string; tauto.
Qed.

(** X15.  The three counters of the header add up: over entries produced
    by the normaliser, the numbers of folders, PDFs and spreadsheets sum to
    the number of entries, and the folder counter counts exactly the
    entries of kind [folder]. *)
Theorem stats_add_up (driveFiles : list Service.DriveFile) :
  let files := map (processFile newDate) driveFiles in
  (folders (getFileTypeStats files) + pdfs (getFileTypeStats files)
   + excels (getFileTypeStats files) = List.length files)%nat /\
  folders (getFileTypeStats files) = List.length (filter (isType folder) files).
Proof.
  cbv zeta. unfold getFileTypeStats. cbn [folders pdfs excels].
  induction driveFiles as [|r l [IH1 IH2]]; [split; reflexivity|].
  cbn [map filter].
  destruct (processFile_flags r)
    as [(-> & -> & -> & ->) | [(-> & -> & -> & ->) | (-> & -> & -> & ->)]];
    cbn [List.length]; split; lia.
Qed.

End LoadedEntries.

Lemma formatFileSize_outside_units_witness :
  1024 ^ 4 <= 1099511627776 /\ -5 < 0 /\
  (exists value,
      Manager.formatFileSize (JS.Fin 1099511627776) = value ++ " undefined") /\
  Manager.formatFileSize (JS.Fin (-5)) = "NaN undefined".
Proof.
  assert (H1 : 1024 ^ 4 <= 1099511627776) by (vm_compute; discriminate).
  assert (H2 : -5 < 0) by reflexivity.
  split; [exact H1|]. split; [exact H2|]. split.
  - exact (proj1 formatFileSize_outside_units 1099511627776 H1).
  - exact (proj1 (proj2 formatFileSize_outside_units) (-5) H2).
Defined.

Lemma latestModification_is_maximum_witness :
  let files := [ Examples.entry "a" false 20; Examples.entry "b" true 50;
                 Examples.entry "c" false 30 ] in
  exists t,
    Manager.latestModification JS.NaN files = JS.Fin t /\
    (exists e, In e files /\ Manager.modifiedTime e = JS.Fin t) /\
    (forall e t', In e files -> Manager.modifiedTime e = JS.Fin t' -> t' <= t).
Proof.
  intros files. apply latestModification_is_maximum.
  - discriminate.
  - repeat constructor; eexists; reflexivity.
Defined.

Lemma latestModification_invalid_first_witness :
  Manager.latestModification (JS.Fin 0)
    [ Manager.processFile Examples.noDate Examples.rootReport;
      Examples.entry "b" true 50 ]
  = JS.NaN.
Proof.
  apply latestModification_invalid_first. reflexivity.
Defined.

(** ** Sizes written as decimal numbers *)

Section DecimalSizes.
Import Manager.

Lemma isDigitChar_digitChar (d : Z) :
  0 <= d < 10 ->
  Spec.isDigitChar (JS.digitChar d) = true /\
  JS.digitValue 10 (JS.digitChar d) = Some d.
Proof.
  intros H.
  assert (Hc : d = 0 \/ d = 1 \/ d = 2 \/ d = 3 \/ d = 4 \/
               d = 5 \/ d = 6 \/ d = 7 \/ d = 8 \/ d = 9) by lia.
  repeat (destruct Hc as [-> | Hc]; [split; reflexivity|]).
  subst d. split; reflexivity.
Qed.

(** The digits [natToString] writes are read back by [digits]. *)
Lemma digits_natToString (fuel : nat) :
  forall n acc rest,
    0 <= n < 10 ^ (Z.of_nat fuel + 1) ->
    exists p,
      n < p /\
      JS.digits 10 acc (JS.natToString (S fuel) n rest)
      = JS.digits 10
          (Some (p * match acc with Some a => a | None => 0 end + n)) rest.
Proof.
  induction fuel as [|fuel IH]; intros n acc rest Hn.
  - change (Z.of_nat 0 + 1) with 1 in Hn. rewrite Z.pow_1_r in Hn.
    cbn [JS.natToString]. replace (n <? 10) with true by (symmetry; apply Z.ltb_lt; lia).
    rewrite Z.mod_small by lia. exists 10. split; [lia|].
    cbn [JS.digits]. now rewrite (proj2 (isDigitChar_digitChar n Hn)).
  - cbn [JS.natToString].
    assert (Hd : 0 <= n mod 10 < 10) by (apply Z.mod_pos_bound; lia).
    destruct (n <? 10) eqn:E.
    + apply Z.ltb_lt in E. rewrite Z.mod_small by lia. exists 10. split; [lia|].
      cbn [JS.digits].
      now rewrite (proj2 (isDigitChar_digitChar n ltac:(lia))).
    + apply Z.ltb_ge in E.
      assert (Hq : 0 <= n / 10 < 10 ^ (Z.of_nat fuel + 1)).
      { split; [apply Z.div_pos; lia|].
        apply Z.div_lt_upper_bound; [lia|].
        replace (Z.of_nat (S fuel) + 1) with (Z.succ (Z.of_nat fuel + 1)) in Hn by lia.
        rewrite Z.pow_succ_r in Hn by lia. lia. }
      destruct (IH (n / 10) acc
                  (String (JS.digitChar (n mod 10)) rest) Hq) as [p [Hp Heq]].
      change (JS.natToString (S fuel) (n / 10) (String (JS.digitChar (n mod 10)) rest))
        with (let acc' := String (JS.digitChar ((n / 10) mod 10))
                            (String (JS.digitChar (n mod 10)) rest) in
              if n / 10 <? 10 then acc'
              else JS.natToString fuel (n / 10 / 10) acc') in Heq.
      cbv zeta in Heq. rewrite Heq.
      exists (10 * p). pose proof (Z.div_mod n 10 ltac:(lia)). split; [lia|].
      cbn [JS.digits]. rewrite (proj2 (isDigitChar_digitChar _ Hd)).
      f_equal. f_equal. lia.
Qed.

Lemma natToString_shape (fuel : nat) :
  forall n acc,
    0 <= n -> Spec.digitHead acc ->
    exists c s,
      JS.natToString (S fuel) n acc = String c s /\
      Spec.isDigitChar c = true /\ Spec.digitHead s.
Proof.
  induction fuel as [|fuel IH]; intros n acc Hn Hacc;
    assert (Hd : 0 <= n mod 10 < 10) by (apply Z.mod_pos_bound; lia);
    pose proof (proj1 (isDigitChar_digitChar _ Hd)) as Hc.
  - cbn [JS.natToString]. destruct (n <? 10); eauto.
  - change (JS.natToString (S (S fuel)) n acc)
      with (if n <? 10 then String (JS.digitChar (n mod 10)) acc
            else JS.natToString (S fuel) (n / 10)
                   (String (JS.digitChar (n mod 10)) acc)).
    destruct (n <? 10); [eauto|].
    apply IH; [apply Z.div_pos; lia | exact Hc].
Qed.

(** [parseInt] on a string that begins with a decimal digit followed by
    nothing or by another digit: no white space to skip, no sign, no
    hexadecimal prefix. *)
Lemma parseInt_digit_string (c : ascii) (s : string) :
  Spec.isDigitChar c = true -> Spec.digitHead s ->
  JS.parseInt (String c s) =
  match JS.digits 10 None (String c s) with
  | None => JS.NaN
  | Some v => JS.Fin v
  end.
Proof.
  intros Hc Hs.
  destruct c as [[] [] [] [] [] [] [] []]; try discriminate Hc;
    try (unfold JS.parseInt; cbn [JS.trimStart JS.isWhiteSpace]; simpl;
         match goal with
         | |- context [JS.digits ?r ?a ?t] =>
             destruct (JS.digits r a t) as [[|v|v]|]; reflexivity
         end).
  destruct s as [|c' s'].
  - reflexivity.
  - simpl in Hs.
    destruct c' as [[] [] [] [] [] [] [] []]; try discriminate Hs;
      unfold JS.parseInt; cbn [JS.trimStart JS.isWhiteSpace]; simpl;
      match goal with
      | |- context [JS.digits ?r ?a ?t] =>
          destruct (JS.digits r a t) as [[|v|v]|]; reflexivity
      end.
Qed.

(** What the code reads from the decimal writing of a number. *)
Lemma parseInt_intToString (n : Z) :
  0 <= n ->
  JS.parseInt (JS.intToString n) = JS.Fin n /\
  JS.truthy (Some (JS.intToString n)) = true.
Proof.
  intros Hn. unfold JS.intToString.
  set (fuel := Z.to_nat (Z.log2_up (n + 1))).
  destruct (natToString_shape fuel n "" Hn I) as (c & s & Heq & Hc & Hs).
  assert (Hbound : 0 <= n < 10 ^ (Z.of_nat fuel + 1)).
  { split; [exact Hn|]. unfold fuel.
    rewrite Z2Nat.id by apply Z.log2_up_nonneg.
    assert (H2 : n + 1 <= 2 ^ Z.log2_up (n + 1)).
    { destruct (Z.eq_dec n 0) as [-> | Hne]; [simpl; lia|].
      apply Z.log2_up_spec. lia. }
    assert (H10 : 2 ^ Z.log2_up (n + 1) <= 10 ^ Z.log2_up (n + 1)).
    { apply Z.pow_le_mono_l. lia. }
    assert (H11 : 10 ^ Z.log2_up (n + 1) <= 10 ^ (Z.log2_up (n + 1) + 1)).
    { apply Z.pow_le_mono_r; [lia|]. pose proof (Z.log2_up_nonneg (n + 1)). lia. }
    lia. }
  destruct (digits_natToString fuel n None "" Hbound) as [p [_ Hdig]].
  rewrite Heq in *. split; [|reflexivity].
  rewrite (parseInt_digit_string c s Hc Hs), Hdig.
  cbn [JS.digits]. f_equal. lia.
Qed.

Variable newDate : string -> JS.num.

(** X16.  A size that the provider writes as a plain decimal number is read
    back exactly as long as a number of the code holds it exactly: a
    record whose size field is the decimal writing of [n] with
    [0 <= n < 2^53] is shown with what [formatFileSize] prints for [n],
    whatever its kind. *)
Theorem decimal_size_is_read_back (file : Service.DriveFile) (n : Z) :
  0 <= n < 2 ^ 53 ->
  Service.size file = Some (JS.intToString n) ->
  size (processFile newDate file) = formatFileSize (JS.Fin n).
Proof.
  intros [Hn _] Hsize. destruct (parseInt_intToString n Hn) as [Hparse Htruthy].
  simpl. rewrite Hsize, Htruthy, Hparse. reflexivity.
Qed.

End DecimalSizes.

Lemma decimal_size_is_read_back_witness :
  0 <= 1536 < 2 ^ 53 /\
  Service.size Examples.rootReport = Some (JS.intToString 1536) /\
  Manager.size (Manager.processFile Examples.noDate Examples.rootReport) = "1.5 KB".
Proof.
  assert (H : 0 <= 1536 < 2 ^ 53) by (split; [discriminate | reflexivity]).
  split; [exact H|]. split; [reflexivity|].
  exact (decimal_size_is_read_back Examples.noDate Examples.rootReport 1536 H eq_refl).
Defined.

(** ** The upload component *)

Section UploadedFiles.
Import PriceListManager.

Variable freshId : nat -> string.
Variable createObjectURL : nat -> string.
Variable now : nat -> JS.num.
Variable toLowerCase : string -> string.

Lemma uploadFrom_appends (uploadedFiles : list File) :
  forall i files,
    exists added,
      uploadFrom freshId createObjectURL now i uploadedFiles files
      = (files ++ added)%list /\
      map name added = map fileName (filter isAccepted uploadedFiles) /\
      map size added = map fileSize (filter isAccepted uploadedFiles) /\
      Forall (fun f => category f = Some "products") added.
Proof.
  induction uploadedFiles as [|file rest IH]; intros i files; simpl.
  - exists []. rewrite app_nil_r. repeat split. constructor.
  - destruct (isAccepted file) eqn:E.
    + destruct (IH (S i)
                  (files ++ [newFile freshId createObjectURL now i file])%list)
        as (added & Heq & Hn & Hs & Hc).
      exists (newFile freshId createObjectURL now i file :: added).
      rewrite Heq, <- app_assoc. simpl.
      rewrite Hn, Hs. repeat split. now constructor.
    + exact (IH (S i) files).
Qed.

(** X17.  An upload only appends.  The files already listed are kept as
    they are and in their order; behind them comes one entry for each
    uploaded file of an accepted type (PDF or one of the two spreadsheet
    types), in the order of the upload, with the name and size of the
    file and the category ["products"]; files of any other type are
    skipped. *)
Theorem handleFileUpload_appends_accepted
  (uploadedFiles : list File) (files : list PriceListFile) :
  exists added,
    handleFileUpload freshId createObjectURL now uploadedFiles files
    = (files ++ added)%list /\
    map name added = map fileName (filter isAccepted uploadedFiles) /\
    map size added = map fileSize (filter isAccepted uploadedFiles) /\
    Forall (fun f => category f = Some "products") added.
Proof. apply uploadFrom_appends. Qed.

(** X18.  Deleting by identifier removes exactly the entries that carry
    it: what is left are the other entries, in their order, and deleting
    the same identifier again changes nothing. *)
Theorem deleteFile_removes_exactly (i : string) (files : list PriceListFile) :
  (forall f, In f (deleteFile i files) <-> In f files /\ id f <> i) /\
  Forall (fun f => id f <> i) (deleteFile i files) /\
  (List.length (deleteFile i files) <= List.length files)%nat /\
  deleteFile i (deleteFile i files) = deleteFile i files.
Proof.
  unfold deleteFile. split; [|split; [|split]].
  - intros f. rewrite filter_In, negb_true_iff, String.eqb_neq. tauto.
  - apply Forall_forall. intros f Hf. apply filter_In in Hf.
    destruct Hf as [_ Hf]. now apply negb_true_iff, String.eqb_neq in Hf.
  - apply filter_length_le.
  - induction files as [|f l IH]; simpl; [reflexivity|].
    destruct (negb (id f =? i)%string) eqn:E; simpl; [|exact IH].
    now rewrite E, IH.
Qed.

(** X19.  Changing a category touches nothing else.  The list keeps its
    length and order: position by position, an entry with another
    identifier is left exactly as it was, and an entry with the given
    identifier keeps its identifier, name, kind, size, upload date and
    address and gets the new category.  Of two changes for the same
    identifier the later one wins. *)
Theorem updateFileCategory_only_sets_category
  (i c : string) (files : list PriceListFile) :
  Forall2
    (fun before after =>
       (id before <> i -> after = before) /\
       (id before = i -> category after = Some c) /\
       id after = id before /\ name after = name before /\
       type after = type before /\ size after = size before /\
       uploadDate after = uploadDate before /\ url after = url before)
    files (updateFileCategory i c files) /\
  (forall c0,
      updateFileCategory i c (updateFileCategory i c0 files)
      = updateFileCategory i c files).
Proof.
  unfold updateFileCategory. split.
  - induction files as [|f l IH]; simpl; constructor; [|exact IH].
    destruct (id f =? i)%string eqn:E.
    + apply String.eqb_eq in E. simpl. repeat split; try reflexivity.
      intros Hne. contradiction.
    + apply String.eqb_neq in E. repeat split; try reflexivity.
      intros Heq. contradiction.
  - intros c0. rewrite map_map. apply map_ext. intros f.
    destruct (id f =? i)%string eqn:E; simpl; rewrite E; reflexivity.
Qed.

(** X20.  Deleting and changing a category do not interfere: they give the
    same list in either order, and deleting an entry erases the change of
    category made to it. *)
Theorem deleteFile_updateFileCategory_commute
  (i j c : string) (files : list PriceListFile) :
  deleteFile i (updateFileCategory j c files)
  = updateFileCategory j c (deleteFile i files) /\
  deleteFile i (updateFileCategory i c files) = deleteFile i files.
Proof.
  unfold deleteFile, updateFileCategory. split.
  - induction files as [|f l IH]; simpl; [reflexivity|].
    replace (id (if (id f =? j)%string
                 then {| id := id f; name := name f; type := type f;
                         size := size f; uploadDate := uploadDate f;
                         url := url f; category := Some c |}
                 else f))
      with (id f) by now destruct (id f =? j)%string.
    destruct (negb (id f =? i)%string); simpl; now rewrite IH.
  - induction files as [|f l IH]; simpl; [reflexivity|].
    destruct (id f =? i)%string eqn:E; simpl; rewrite E; simpl; now rewrite IH.
Qed.

(** X21.  What was just uploaded is on screen.  Provided lower-casing the
    empty string gives the empty string, with no search term the uploads
    made into an empty list are all shown under ["all"] and under
    ["products"], and none of them under any other category. *)
Theorem uploads_shown_under_products
  (uploadedFiles : list File) (selectedCategory : string) :
  toLowerCase "" = "" ->
  let files := handleFileUpload freshId createObjectURL now uploadedFiles [] in
  filteredFiles toLowerCase files "" selectedCategory =
  if (selectedCategory =? "all")%string || (selectedCategory =? "products")%string
  then files else [].
Proof.
  intros Hempty files.
  destruct (uploadFrom_appends uploadedFiles 0%nat [])
    as (added & Heq & _ & _ & Hcat).
  subst files. unfold handleFileUpload. rewrite Heq. simpl app. unfold filteredFiles.
  set (shown := (selectedCategory =? "all")%string ||
                (selectedCategory =? "products")%string).
  assert (Hpred : forall f,
             category f = Some "products" ->
             JS.includes (toLowerCase (name f)) (toLowerCase "") &&
             matchesCategory selectedCategory f = shown).
  { intros f Hf. rewrite Hempty, JSFacts.includes_empty.
    unfold matchesCategory. rewrite Hf.
    now rewrite (String.eqb_sym "products" selectedCategory). }
  clearbody shown. clear Heq.
  induction Hcat as [|f l Hf Hl IH]; cbn [filter].
  - now destruct shown.
  - rewrite (Hpred f Hf), IH. now destruct shown.
Qed.

End UploadedFiles.

Lemma uploads_shown_under_products_witness :
  Manager.asciiToLowerCase "" = "" /\
  let uploaded := [ Examples.upload "a.pdf" "application/pdf" 10;
                    Examples.upload "b.png" "image/png" 20;
                    Examples.upload "c.xls" "application/vnd.ms-excel" 30 ] in
  let files :=
    PriceListManager.handleFileUpload (fun _ => "id") (fun _ => "blob:")
      (fun _ => JS.Fin 0) uploaded [] in
  PriceListManager.filteredFiles Manager.asciiToLowerCase files "" "services" = [] /\
  map PriceListManager.name
    (PriceListManager.filteredFiles Manager.asciiToLowerCase files "" "products")
  = ["a.pdf"; "c.xls"].
Proof.
  split; [reflexivity|]. intros uploaded files.
  pose proof (uploads_shown_under_products (fun _ => "id") (fun _ => "blob:")
                (fun _ => JS.Fin 0) Manager.asciiToLowerCase uploaded "services" eq_refl)
    as Hservices.
  pose proof (uploads_shown_under_products (fun _ => "id") (fun _ => "blob:")
                (fun _ => JS.Fin 0) Manager.asciiToLowerCase uploaded "products" eq_refl)
    as Hproducts.
  cbv zeta in Hservices, Hproducts. fold files in Hservices, Hproducts.
  split; [exact Hservices|]. rewrite Hproducts. reflexivity.
Defined.

(** ** The session flag *)

Section Session.
Import App.

(** X22.  When the page is loaded, the spinner is gone after the first
    effect, and the price lists are shown exactly when the value stored
    under ["priceListAuth"] is ["authenticated"]; with any other value, or
    none, the password form is shown. *)
Theorem page_load_shows_lists_iff_flag (storage : Storage) :
  (render (onMount storage initialState) = PriceListWithLogout <->
   getItem storage "priceListAuth" = Some "authenticated") /\
  (render (onMount storage initialState) = PasswordProtection <->
   getItem storage "priceListAuth" <> Some "authenticated").
Proof.
  unfold render, onMount. cbn [isLoading isAuthenticated initialState].
  destruct (getItem storage "priceListAuth") as [v|].
  - destruct (v =? "authenticated")%string eqn:E; simpl.
    + apply String.eqb_eq in E. subst v. split; split; try tauto; discriminate.
    + apply String.eqb_neq in E.
      split; split; try discriminate; try tauto;
        intros H; try (injection H as H); congruence.
  - simpl. split; split; try discriminate; tauto.
Qed.

(** X23.  Logging out lasts: after [handleLogout] the password form is
    shown at once (when the page had finished loading) and again after a
    reload, whatever was stored before; every other key of the storage is
    left as it was. *)
Theorem logout_survives_reload (storage : Storage) (s : State) :
  let storage' := fst (handleLogout storage s) in
  let s' := snd (handleLogout storage s) in
  getItem storage' "priceListAuth" = None /\
  render (onMount storage' initialState) = PasswordProtection /\
  (isLoading s = false -> render s' = PasswordProtection) /\
  (forall k, k <> "priceListAuth" -> getItem storage' k = getItem storage k).
Proof.
  simpl. unfold removeItem, getItem, render, onMount. simpl.
  repeat split.
  - intros ->. reflexivity.
  - intros k Hk. apply String.eqb_neq in Hk. now rewrite Hk.
Qed.

End Session.
